(** * CRM adapter servers: a shallow embedding of the tool handlers

    The repository holds five small servers (GoHighLevel, HubSpot, Keap,
    Pipedrive, Freshworks).  Every tool is an asynchronous handler that
    builds one request, hands it to an HTTP client and turns the outcome
    into a reply envelope.  This development embeds the handlers as
    functions in a state-and-exception monad over a fake vendor, together
    with the platform functions they call ([JSON.stringify], [JSON.parse],
    [encodeURIComponent], [URLSearchParams]), and proves properties of the
    envelopes and of the requests.

    Conventions of the model.
    - A JavaScript string is the list of the bytes of its UTF-8 form
      ([str]); ill-formed strings (lone surrogates) are outside the model.
    - A JavaScript number is an integer ([Z]), printed in decimal;
      fractions, exponents and non-finite numbers are outside the model.
    - A JavaScript object is the list of its own properties in enumeration
      order: array indices in ascending order first, then the other keys in
      insertion order. *)

From Stdlib Require Import Decimal DecimalFacts DecimalN.
From Stdlib Require Import List Ascii String ZArith NArith Lia Bool Arith.
Import ListNotations.

Open Scope string_scope.
Open Scope list_scope.

(** ** Strings *)

Module Str.

Definition str := list ascii.

#[global] Coercion list_ascii_of_string : string >-> list.

Definition dquote : ascii := "034"%char.
Definition newline : ascii := "010"%char.
Definition backslash : ascii := "092"%char.

Fixpoint eqb (a b : str) : bool :=
  match a, b with
  | [], [] => true
  | x :: a', y :: b' => Ascii.eqb x y && eqb a' b'
  | _, _ => false
  end.

Definition char_in (c : ascii) (s : str) : bool :=
  existsb (Ascii.eqb c) s.

(** [prefix p s]: [s] starts with [p] ([String.prototype.startsWith]). *)
Fixpoint prefix (p s : str) : bool :=
  match p, s with
  | [], _ => true
  | _ :: _, [] => false
  | x :: p', y :: s' => Ascii.eqb x y && prefix p' s'
  end.

(** [includes p s]: [p] occurs in [s] ([String.prototype.includes]). *)
Fixpoint includes (p s : str) : bool :=
  match s with
  | [] => prefix p []
  | _ :: s' => prefix p s || includes p s'
  end.

(** [Array.prototype.join] on an array of strings. *)
Fixpoint join (sep : str) (l : list str) : str :=
  match l with
  | [] => []
  | [x] => x
  | x :: l' => x ++ sep ++ join sep l'
  end.

(** Splitting at every occurrence of a separator character. *)
Fixpoint split (sep : ascii) (s : str) : list str :=
  match s with
  | [] => [[]]
  | c :: s' =>
      if Ascii.eqb c sep then [] :: split sep s'
      else match split sep s' with
           | [] => [[c]]
           | x :: l => (c :: x) :: l
           end
  end.

(** The part before the first occurrence of a character. *)
Fixpoint before (sep : ascii) (s : str) : str :=
  match s with
  | [] => []
  | c :: s' => if Ascii.eqb c sep then [] else c :: before sep s'
  end.

(** The part after the first occurrence of a character (empty if none). *)
Fixpoint after (sep : ascii) (s : str) : str :=
  match s with
  | [] => []
  | c :: s' => if Ascii.eqb c sep then s' else after sep s'
  end.

(** The first line of a text. *)
Definition first_line (s : str) : str := before newline s.


End Str.
Export Str.

(** ** Numbers *)

Module Num.

Definition digit_char (d : N) : ascii := ascii_of_N (48 + d).

(** The characters of a decimal numeral, most significant first. *)
Fixpoint uint_chars (u : Decimal.uint) : str :=
  match u with
  | Nil => []
  | D0 u' => "0"%char :: uint_chars u'
  | D1 u' => "1"%char :: uint_chars u'
  | D2 u' => "2"%char :: uint_chars u'
  | D3 u' => "3"%char :: uint_chars u'
  | D4 u' => "4"%char :: uint_chars u'
  | D5 u' => "5"%char :: uint_chars u'
  | D6 u' => "6"%char :: uint_chars u'
  | D7 u' => "7"%char :: uint_chars u'
  | D8 u' => "8"%char :: uint_chars u'
  | D9 u' => "9"%char :: uint_chars u'
  end.

(** [Number.prototype.toString] (radix 10) on an integer. *)
Definition toString (n : Z) : str :=
  match n with
  | Z0 => "0"
  | Zpos p => uint_chars (N.to_uint (Npos p))
  | Zneg p => "-"%char :: uint_chars (N.to_uint (Npos p))
  end.

Definition is_digit (c : ascii) : bool :=
  let n := N_of_ascii c in (48 <=? n)%N && (n <=? 57)%N.

(** The digit a character stands for, as a constructor of [Decimal.uint]. *)
Definition digit_cons (c : ascii) : option (Decimal.uint -> Decimal.uint) :=
  match N_of_ascii c with
  | 48%N => Some D0 | 49%N => Some D1 | 50%N => Some D2 | 51%N => Some D3
  | 52%N => Some D4 | 53%N => Some D5 | 54%N => Some D6 | 55%N => Some D7
  | 56%N => Some D8 | 57%N => Some D9
  | _ => None
  end.

(** The longest run of digits at the start of a text, and what follows. *)
Fixpoint read_digits (s : str) : Decimal.uint * str :=
  match s with
  | [] => (Nil, [])
  | c :: s' =>
      match digit_cons c with
      | Some d => let (u, r) := read_digits s' in (d u, r)
      | None => (Nil, s)
      end
  end.

End Num.

(** ** JSON values *)

Module Json.

Unset Elimination Schemes.

Inductive value : Type :=
| JNull
| JBool (b : bool)
| JNum (n : Z)
| JStr (s : str)
| JArr (l : list value)
| JObj (m : list (str * value)).

Set Elimination Schemes.

(** *** Property access, truthiness and [ToString] *)

Fixpoint lookup (k : str) (m : list (str * value)) : option value :=
  match m with
  | [] => None
  | (k', v) :: m' => if Str.eqb k k' then Some v else lookup k m'
  end.

(** [v.k] for a value that is neither [null] nor [undefined]: the member
    of an object, [undefined] ([None]) on anything else the parser yields. *)
Definition member (k : str) (v : value) : option value :=
  match v with
  | JObj m => lookup k m
  | _ => None
  end.

(** JavaScript truthiness; [None] is [undefined]. *)
Definition truthy (v : option value) : bool :=
  match v with
  | None => false
  | Some JNull => false
  | Some (JBool b) => b
  | Some (JNum n) => negb (Z.eqb n 0)
  | Some (JStr s) => negb (Str.eqb s [])
  | Some (JArr _) => true
  | Some (JObj _) => true
  end.

(** [String(v)], as a template literal applies it. *)
Fixpoint to_display (v : value) : str :=
  match v with
  | JNull => "null"
  | JBool true => "true"
  | JBool false => "false"
  | JNum n => Num.toString n
  | JStr s => s
  | JArr l =>
      join ","
        (map (fun x => match x with JNull => [] | _ => to_display x end) l)
  | JObj _ => "[object Object]"
  end.

Definition display (v : option value) : str :=
  match v with
  | None => "undefined"
  | Some x => to_display x
  end.

(** *** [JSON.stringify]

    The serialisation algorithm of ECMAScript ([SerializeJSONProperty],
    [SerializeJSONObject], [SerializeJSONArray], [QuoteJSONString]) for a
    given [gap]: [JSON.stringify(v)] has the empty gap,
    [JSON.stringify(v, null, 2)] the gap of two spaces. *)

Definition hex_digit (n : N) : ascii :=
  if (n <? 10)%N then ascii_of_N (48 + n) else ascii_of_N (87 + n).

(** Code units below 0x20 without a short escape are written [\u00XY]. *)
Definition unicode_escape (c : ascii) : str :=
  let n := N_of_ascii c in
  [backslash; "u"%char; "0"%char; "0"%char; hex_digit (n / 16); hex_digit (n mod 16)].

Definition quote_char (c : ascii) : str :=
  match N_of_ascii c with
  | 8%N => [backslash; "b"%char]
  | 9%N => [backslash; "t"%char]
  | 10%N => [backslash; "n"%char]
  | 12%N => [backslash; "f"%char]
  | 13%N => [backslash; "r"%char]
  | 34%N => [backslash; dquote]
  | 92%N => [backslash; backslash]
  | n => if (n <? 32)%N then unicode_escape c else [c]
  end.

Definition quote (s : str) : str :=
  dquote :: flat_map quote_char s ++ [dquote].

Definition is_empty (s : str) : bool :=
  match s with [] => true | _ => false end.

(** The brackets around the serialised members [partial], at indentation
    [indent] inside and [stepback] outside. *)
Definition wrap (opening closing : ascii) (gap stepback indent : str)
    (partial : list str) : str :=
  match partial with
  | [] => [opening; closing]
  | _ =>
      if is_empty gap then opening :: join "," partial ++ [closing]
      else
        opening :: newline :: indent
          ++ join ("," ++ newline :: indent) partial
          ++ newline :: stepback ++ [closing]
  end.

(** The line break and indentation before a member, when there is a gap. *)
Definition line_break (gap indent : str) : str :=
  if is_empty gap then [] else newline :: indent.

Definition colon (gap : str) : str :=
  if is_empty gap then ":" else ": ".

Fixpoint serialize (gap indent : str) (v : value) : str :=
  match v with
  | JNull => "null"
  | JBool true => "true"
  | JBool false => "false"
  | JNum n => Num.toString n
  | JStr s => quote s
  | JArr l =>
      wrap "[" "]" gap indent (indent ++ gap)
        (map (serialize gap (indent ++ gap)) l)
  | JObj m =>
      wrap "{" "}" gap indent (indent ++ gap)
        (map (fun kv => quote (fst kv) ++ colon gap
                          ++ serialize gap (indent ++ gap) (snd kv)) m)
  end.

(** [JSON.stringify(v)]. *)
Definition stringify (v : value) : str := serialize [] [] v.

(** [JSON.stringify(v, null, 2)]. *)
Definition stringify2 (v : value) : str := serialize "  " [] v.

(** [JSON.stringify(x, null, 2)] where [x] may be [undefined]: the result
    is then [undefined] too. *)
Definition stringify2_opt (x : option value) : option str :=
  option_map stringify2 x.

(** *** [JSON.parse]

    A recursive-descent parser of the JSON grammar.  [None] stands for the
    [SyntaxError] the platform raises. *)

Definition is_ws (c : ascii) : bool :=
  match N_of_ascii c with
  | 32%N | 9%N | 10%N | 13%N => true
  | _ => false
  end.

Fixpoint skip_ws (s : str) : str :=
  match s with
  | [] => []
  | c :: s' => if is_ws c then skip_ws s' else s
  end.

Definition hex_value (c : ascii) : option N :=
  let n := N_of_ascii c in
  if ((48 <=? n) && (n <=? 57))%N then Some (n - 48)%N
  else if ((65 <=? n) && (n <=? 70))%N then Some (n - 55)%N
  else if ((97 <=? n) && (n <=? 102))%N then Some (n - 87)%N
  else None.

Definition hex4 (a b c d : ascii) : option N :=
  match hex_value a, hex_value b, hex_value c, hex_value d with
  | Some x, Some y, Some z, Some w => Some (((x * 16 + y) * 16 + z) * 16 + w)%N
  | _, _, _, _ => None
  end.

(** The UTF-8 bytes of a code point. *)
Definition utf8 (cp : N) : str :=
  (if cp <? 128 then [ascii_of_N cp]
   else if cp <? 2048 then
     [ascii_of_N (192 + cp / 64); ascii_of_N (128 + cp mod 64)]
   else if cp <? 65536 then
     [ascii_of_N (224 + cp / 4096); ascii_of_N (128 + (cp / 64) mod 64);
      ascii_of_N (128 + cp mod 64)]
   else
     [ascii_of_N (240 + cp / 262144); ascii_of_N (128 + (cp / 4096) mod 64);
      ascii_of_N (128 + (cp / 64) mod 64); ascii_of_N (128 + cp mod 64)])%N.

Definition is_high_surrogate (n : N) : bool := ((55296 <=? n) && (n <=? 56319))%N.
Definition is_low_surrogate (n : N) : bool := ((56320 <=? n) && (n <=? 57343))%N.

Definition surrogate_pair (hi lo : N) : N :=
  (65536 + (hi - 55296) * 1024 + (lo - 56320))%N.

Definition unescape (c : ascii) : option ascii :=
  match N_of_ascii c with
  | 34%N => Some dquote
  | 92%N => Some backslash
  | 47%N => Some "/"%char
  | 98%N => Some "008"%char
  | 102%N => Some "012"%char
  | 110%N => Some "010"%char
  | 114%N => Some "013"%char
  | 116%N => Some "009"%char
  | _ => None
  end.

Definition prepend (p : str) (r : option (str * str)) : option (str * str) :=
  match r with
  | Some (x, rest) => Some (p ++ x, rest)
  | None => None
  end.

(** The characters of a string literal after its opening quote, up to and
    including the closing quote; returns the string and the rest. *)
Fixpoint read_string (s : str) : option (str * str) :=
  match s with
  | [] => None
  | c :: r =>
      if Ascii.eqb c dquote then Some ([], r)
      else if Ascii.eqb c backslash then
        match r with
        | [] => None
        | e :: r1 =>
            if Ascii.eqb e "u" then
              match r1 with
              | h1 :: h2 :: h3 :: h4 :: r2 =>
                  match hex4 h1 h2 h3 h4 with
                  | None => None
                  | Some hi =>
                      if is_high_surrogate hi then
                        match r2 with
                        | b :: u :: l1 :: l2 :: l3 :: l4 :: r3 =>
                            match hex4 l1 l2 l3 l4 with
                            | Some lo =>
                                if Ascii.eqb b backslash && Ascii.eqb u "u"
                                   && is_low_surrogate lo
                                then prepend (utf8 (surrogate_pair hi lo)) (read_string r3)
                                else prepend (utf8 hi) (read_string r2)
                            | None => prepend (utf8 hi) (read_string r2)
                            end
                        | _ => prepend (utf8 hi) (read_string r2)
                        end
                      else prepend (utf8 hi) (read_string r2)
                  end
              | _ => None
              end
            else
              match unescape e with
              | Some ch => prepend [ch] (read_string r1)
              | None => None
              end
        end
      else if (N_of_ascii c <? 32)%N then None
      else prepend [c] (read_string r)
  end.

(** A numeral is ["0"] or starts with a non-zero digit. *)
Definition no_leading_zero (u : Decimal.uint) : bool :=
  match u with
  | Nil => false
  | D0 Nil => true
  | D0 _ => false
  | _ => true
  end.

(** A fraction or an exponent follows: outside the integers of the model. *)
Definition continues_number (r : str) : bool :=
  match r with
  | c :: _ => Ascii.eqb c "." || Ascii.eqb c "e" || Ascii.eqb c "E"
  | [] => false
  end.

Definition read_number (s : str) : option (Z * str) :=
  let (negative, s1) :=
    match s with
    | c :: r => if Ascii.eqb c "-" then (true, r) else (false, s)
    | [] => (false, s)
    end in
  let (u, r) := Num.read_digits s1 in
  if no_leading_zero u && negb (continues_number r) then
    let n := Z.of_N (N.of_uint u) in
    Some (if negative then Z.opp n else n, r)
  else None.

(** *** Objects as ordered property lists *)

(** An array index is the canonical numeral of an integer below 2^32 - 1. *)
Definition array_index (k : str) : option N :=
  let (u, r) := Num.read_digits k in
  if no_leading_zero u && is_empty r && (N.of_uint u <? 4294967295)%N
  then Some (N.of_uint u) else None.

Fixpoint replace (k : str) (v : value) (m : list (str * value)) : list (str * value) :=
  match m with
  | [] => []
  | (k', v') :: m' =>
      if Str.eqb k k' then (k', v) :: m' else (k', v') :: replace k v m'
  end.

Fixpoint insert_index (n : N) (k : str) (v : value) (m : list (str * value))
  : list (str * value) :=
  match m with
  | [] => [(k, v)]
  | (k', v') :: m' =>
      match array_index k' with
      | Some n' =>
          if (n' <? n)%N then (k', v') :: insert_index n k v m' else (k, v) :: m
      | None => (k, v) :: m
      end
  end.

(** [o[k] = v] on an ordinary object: an existing property keeps its
    place, a new array index goes among the indices, any other new key
    goes last. *)
Definition obj_set (k : str) (v : value) (m : list (str * value)) : list (str * value) :=
  match lookup k m with
  | Some _ => replace k v m
  | None =>
      match array_index k with
      | Some n => insert_index n k v m
      | None => m ++ [(k, v)]
      end
  end.

(** *** The parser *)

Fixpoint parse_value (fuel : nat) (s : str) {struct fuel} : option (value * str) :=
  match fuel with
  | O => None
  | S fuel' =>
      match skip_ws s with
      | [] => None
      | c :: r =>
          if Ascii.eqb c "{" then
            match skip_ws r with
            | [] => None
            | c' :: r' =>
                if Ascii.eqb c' "}" then Some (JObj [], r')
                else parse_members fuel' [] r
            end
          else if Ascii.eqb c "[" then
            match skip_ws r with
            | [] => None
            | c' :: r' =>
                if Ascii.eqb c' "]" then Some (JArr [], r')
                else parse_elements fuel' [] r
            end
          else if Ascii.eqb c dquote then
            match read_string r with
            | Some (x, r') => Some (JStr x, r')
            | None => None
            end
          else if prefix "true" (c :: r) then Some (JBool true, skipn 4 (c :: r))
          else if prefix "false" (c :: r) then Some (JBool false, skipn 5 (c :: r))
          else if prefix "null" (c :: r) then Some (JNull, skipn 4 (c :: r))
          else
            match read_number (c :: r) with
            | Some (n, r') => Some (JNum n, r')
            | None => None
            end
      end
  end

with parse_elements (fuel : nat) (acc : list value) (s : str) {struct fuel}
  : option (value * str) :=
  match fuel with
  | O => None
  | S fuel' =>
      match parse_value fuel' s with
      | None => None
      | Some (v, r) =>
          match skip_ws r with
          | [] => None
          | c :: r' =>
              if Ascii.eqb c "," then parse_elements fuel' (v :: acc) r'
              else if Ascii.eqb c "]" then Some (JArr (rev (v :: acc)), r')
              else None
          end
      end
  end

with parse_members (fuel : nat) (acc : list (str * value)) (s : str) {struct fuel}
  : option (value * str) :=
  match fuel with
  | O => None
  | S fuel' =>
      match skip_ws s with
      | [] => None
      | c :: r =>
          if Ascii.eqb c dquote then
            match read_string r with
            | None => None
            | Some (k, r1) =>
                match skip_ws r1 with
                | [] => None
                | c1 :: r2 =>
                    if Ascii.eqb c1 ":" then
                      match parse_value fuel' r2 with
                      | None => None
                      | Some (v, r3) =>
                          match skip_ws r3 with
                          | [] => None
                          | c3 :: r4 =>
                              if Ascii.eqb c3 "," then
                                parse_members fuel' (obj_set k v acc) r4
                              else if Ascii.eqb c3 "}" then
                                Some (JObj (obj_set k v acc), r4)
                              else None
                          end
                      end
                    else None
                end
            end
          else None
      end
  end.

(** [JSON.parse(text)]: one value, with nothing but white space around. *)
Definition parse (text : str) : option value :=
  match parse_value (S (List.length text)) text with
  | Some (v, r) => if is_empty (skip_ws r) then Some v else None
  | None => None
  end.

(** *** Objects as the parser builds them *)

(** [key_before k k']: in the enumeration order of an object, [k] may
    come before the different key [k']. *)
Definition key_before (k k' : str) : bool :=
  match array_index k, array_index k' with
  | Some n, Some n' => (n <? n')%N
  | Some _, None => true
  | None, Some _ => false
  | None, None => negb (Str.eqb k k')
  end.

Fixpoint ordered_keys (ks : list str) : bool :=
  match ks with
  | [] => true
  | k :: ks' => forallb (key_before k) ks' && ordered_keys ks'
  end.

(** A value whose objects list their properties in enumeration order,
    each key once: the shape of every value [JSON.parse] returns. *)
Fixpoint normal (v : value) : bool :=
  match v with
  | JArr l => forallb normal l
  | JObj m => ordered_keys (map fst m) && forallb (fun kv => normal (snd kv)) m
  | _ => true
  end.

(** Nesting measure: the fuel the parser needs for a value. *)
Fixpoint size (v : value) : nat :=
  match v with
  | JArr l => S (list_sum (map (fun x => S (size x)) l))
  | JObj m => S (list_sum (map (fun kv => S (size (snd kv))) m))
  | _ => O
  end.

(** What may follow a number in a text: not a digit, fraction or exponent. *)
Definition delimited (r : str) : bool :=
  match r with
  | [] => true
  | c :: _ => negb (Num.is_digit c) && negb (continues_number r)
  end.

(** The rest of a text does not start with a digit. *)
Definition not_digit_head (r : str) : Prop :=
  match r with
  | [] => True
  | c :: _ => Num.digit_cons c = None
  end.

(** The parser reads a serialisation of [v] back, whatever the gap, the
    indentation and the (delimited) text after it. *)
Definition parses_back (v : value) : Prop :=
  forall gap indent f rest,
    forallb is_ws gap = true -> forallb is_ws indent = true ->
    size v < f -> delimited rest = true ->
    parse_value f (serialize gap indent v ++ rest) = Some (v, rest).

End Json.

Export Json.

(** ** URL encoding *)

Module Url.

Definition upper_hex (n : N) : ascii :=
  if (n <? 10)%N then ascii_of_N (48 + n) else ascii_of_N (55 + n).

(** [%XY] for a byte. *)
Definition percent (c : ascii) : str :=
  let n := N_of_ascii c in
  ["%"%char; upper_hex (n / 16); upper_hex (n mod 16)].

Definition is_alnum (c : ascii) : bool :=
  let n := N_of_ascii c in
  (((48 <=? n) && (n <=? 57)) || ((65 <=? n) && (n <=? 90))
   || ((97 <=? n) && (n <=? 122)))%N.

(** The characters [encodeURIComponent] leaves alone. *)
Definition uri_unreserved (c : ascii) : bool :=
  is_alnum c || char_in c "-_.!~*'()".

Definition encode_char (c : ascii) : str :=
  if uri_unreserved c then [c] else percent c.

(** [encodeURIComponent] on a well-formed string. *)
Definition encodeURIComponent (s : str) : str := flat_map encode_char s.

(** The [application/x-www-form-urlencoded] byte serialiser used by
    [URLSearchParams]. *)
Definition form_char (c : ascii) : str :=
  if Ascii.eqb c " " then ["+"%char]
  else if is_alnum c || char_in c "*-._" then [c]
  else percent c.

Definition form_encode (s : str) : str := flat_map form_char s.

(** [URLSearchParams]: the list of name-value pairs. *)
Definition URLSearchParams := list (str * str).

Definition append (name value : str) (p : URLSearchParams) : URLSearchParams :=
  p ++ [(name, value)].

Definition form_pair (kv : str * str) : str :=
  form_encode (fst kv) ++ "=" ++ form_encode (snd kv).

(** [URLSearchParams.prototype.toString]. *)
Definition toString (p : URLSearchParams) : str :=
  join "&" (map form_pair p).


(** The entries of a query string as a server splits it: pieces between
    [&], empty pieces dropped, each cut at its first [=]. *)
Definition query_entries (q : str) : list (str * str) :=
  map (fun e => (before "=" e, after "=" e))
      (filter (fun e => negb (is_empty e)) (split "&" q)).


Fixpoint query_get (k : str) (es : list (str * str)) : option str :=
  match es with
  | [] => None
  | (k', v) :: es' => if Str.eqb k k' then Some v else query_get k es'
  end.

End Url.

(** ** Character classes *)




(** ** The HTTP clients and the vendor behind them *)

Module Http.

(** A response as [node-fetch] hands it over; the body has been read. *)
Record Response := {
  status : Z;
  statusText : str;
  body : str
}.

(** [response.ok]. *)
Definition ok (r : Response) : bool :=
  (200 <=? status r)%Z && (status r <=? 299)%Z.

(** [error.response] of an axios error. *)
Record AxiosResponse := {
  ax_status : Z;
  ax_data : value
}.

(** An [Error] object: its message and, for axios, the response. *)
Record ErrorObject := {
  message : str;
  response : option AxiosResponse
}.

(** What a [catch] clause can receive: an [Error], or a thrown string. *)
Inductive Thrown :=
| ThrownError (e : ErrorObject)
| ThrownString (s : str).

Definition new_Error (msg : str) : Thrown :=
  ThrownError {| message := msg; response := None |}.

(** The request [fetch(url, init)] sends. *)
Record FetchRequest := {
  url : str;
  method : str;
  headers : list (str * str);
  request_body : option str
}.

(** The request an axios instance is asked to send. *)
Record AxiosRequest := {
  baseURL : str;
  ax_headers : list (str * str);
  ax_method : str;
  ax_url : str;
  params : list (str * value);
  data : option value
}.

(** The methods of the Pipedrive client the server uses. *)
Inductive PipedriveCall :=
| GetPersons
| GetPerson (id : Z)
| SearchPersons (term : str)
| GetOrganizations
| GetOrganization (id : Z)
| SearchOrganizations (term : str).

Inductive Call :=
| FetchCall (r : FetchRequest)
| AxiosCall (r : AxiosRequest)
| SdkCall (c : PipedriveCall).

(** The outcome of a call at the network: a failure before any response,
    or a response with any status. *)
Inductive Outcome (A : Type) :=
| Rejected (e : Thrown)
| Resolved (a : A).

Arguments Rejected {A} e.
Arguments Resolved {A} a.

(** The world outside a handler: the vendor as each client reaches it,
    and the message of the error [response.json()] raises on a body that
    is not JSON, as a function of that body.  The Pipedrive client is an
    external library: its promise resolves with the response object or
    rejects. *)
Record World := {
  fetch_backend : FetchRequest -> Outcome Response;
  axios_backend : AxiosRequest -> Outcome Response;
  pipedrive_backend : PipedriveCall -> Outcome value;
  json_failure : str -> str
}.

(** *** Handlers as computations

    A computation reads the world, appends the calls it makes to a log
    and either returns or throws.  The log survives a throw. *)

Inductive Result (A : Type) :=
| Return (a : A)
| Throw (e : Thrown).

Arguments Return {A} a.
Arguments Throw {A} e.

Definition M (A : Type) : Type := World -> list Call -> Result A * list Call.

Definition ret {A} (a : A) : M A := fun _ log => (Return a, log).

Definition throw {A} (e : Thrown) : M A := fun _ log => (Throw e, log).

Definition bind {A B} (m : M A) (k : A -> M B) : M B :=
  fun w log =>
    match m w log with
    | (Return a, log') => k a w log'
    | (Throw e, log') => (Throw e, log')
    end.

(** [try { m } catch (error) { h error }]. *)
Definition try_catch {A} (m : M A) (h : Thrown -> M A) : M A :=
  fun w log =>
    match m w log with
    | (Return a, log') => (Return a, log')
    | (Throw e, log') => h e w log'
    end.

Definition settle {A} (o : Outcome A) : Result A :=
  match o with
  | Rejected e => Throw e
  | Resolved a => Return a
  end.

Declare Scope js_scope.
Delimit Scope js_scope with js.
Notation "x <- m ;; k" := (bind m (fun x => k))
  (at level 61, m at next level, right associativity) : js_scope.
Open Scope js_scope.

(** [await fetch(url, init)]. *)
Definition fetch (r : FetchRequest) : M Response :=
  fun w log => (settle (fetch_backend w r), log ++ [FetchCall r]).

(** [await response.text()]. *)
Definition text_of (r : Response) : M str := ret (body r).

(** [await response.json()]. *)
Definition json (r : Response) : M value :=
  fun w log =>
    match parse (body r) with
    | Some v => (Return v, log)
    | None => (Throw (new_Error (json_failure w (body r))), log)
    end.

(** The message of the [TypeError] for a property read on [null]. *)
Definition null_property_error (name : str) : str :=
  "Cannot read properties of null (reading '" ++ name ++ "')".

(** [v.name], where [v] came out of a parser. *)
Definition property (name : str) (v : value) : M (option value) :=
  match v with
  | JNull => throw (new_Error (null_property_error name))
  | _ => ret (member name v)
  end.

(** What axios makes of a response body: the parsed JSON, or the text
    itself when it is not JSON. *)
Definition axios_data (text : str) : value :=
  match parse text with
  | Some v => v
  | None => JStr text
  end.

(** An axios request: resolves on a 2xx status, rejects with an error
    carrying the response on any other. *)
Definition axios_request (r : AxiosRequest) : M AxiosResponse :=
  fun w log =>
    (match axios_backend w r with
     | Rejected e => Throw e
     | Resolved resp =>
         let res := {| ax_status := status resp; ax_data := axios_data (body resp) |} in
         if ok resp then Return res
         else Throw (ThrownError
                {| message := "Request failed with status code " ++ Num.toString (status resp);
                   response := Some res |})
     end, log ++ [AxiosCall r]).

(** A method of the Pipedrive client. *)
Definition pipedrive_call (c : PipedriveCall) : M value :=
  fun w log => (settle (pipedrive_backend w c), log ++ [SdkCall c]).

(** *** Envelopes *)

Record Content := {
  type : str;
  text : option str
}.

Record Envelope := {
  content : list Content;
  isError : option bool
}.

(** [{ content: [{ type: "text", text }] }]; [text] is [None] when the
    expression for it evaluates to [undefined]. *)
Definition reply (t : option str) : Envelope :=
  {| content := [ {| type := "text"; text := t |} ]; isError := None |}.

Definition success (t : str) : Envelope := reply (Some t).

(** [{ content: [{ type: "text", text }], isError: true }]. *)
Definition failure (t : str) : Envelope :=
  {| content := [ {| type := "text"; text := Some t |} ]; isError := Some true |}.

(** The error flag as the host reads it: absent counts as false. *)
Definition is_error (e : Envelope) : bool :=
  match isError e with
  | Some b => b
  | None => false
  end.

(** One text item holding a string. *)
Definition well_formed (e : Envelope) : bool :=
  match content e with
  | [ c ] => Str.eqb (type c) "text" && match text c with Some _ => true | None => false end
  | _ => false
  end.

(** The text of an envelope's only item. *)
Definition text_of_envelope (e : Envelope) : option str :=
  match content e with
  | [ c ] => text c
  | _ => None
  end.

(** [error.message] inside a template literal. *)
Definition message_display (e : Thrown) : str :=
  match e with
  | ThrownError o => message o
  | ThrownString _ => "undefined"
  end.

(** [error instanceof Error ? error.message : String(error)]. *)
Definition message_or_string (e : Thrown) : str :=
  match e with
  | ThrownError o => message o
  | ThrownString s => s
  end.

(** *** Objects built by a handler *)

(** The properties of an object literal; a property may hold [undefined]. *)
Definition props := list (str * option value).

(** What [JSON.stringify] keeps of such an object: the defined properties. *)
Fixpoint defined (p : props) : list (str * value) :=
  match p with
  | [] => []
  | (k, Some v) :: p' => (k, v) :: defined p'
  | (_, None) :: p' => defined p'
  end.

Definition object (p : props) : value := JObj (defined p).

Definition jstr (s : option str) : option value := option_map JStr s.
Definition jnum (n : option Z) : option value := option_map JNum n.
Definition jbool (b : option bool) : option value := option_map JBool b.
Definition jstrings (l : option (list str)) : option value :=
  option_map (fun x => JArr (map JStr x)) l.

(** A string is truthy when it is present and not empty. *)
Definition present (s : option str) : bool :=
  match s with
  | Some (_ :: _) => true
  | _ => false
  end.

End Http.
Export Http.

(** ** The GoHighLevel server *)

Module GoHighLevel.

Definition GHL_API_BASE : str := "https://rest.gohighlevel.com/v1".

(** [ghlRequest(apiKey, endpoint, method, body)]: the body is parsed
    before the status is looked at. *)
Definition ghlRequest (apiKey endpoint method : str) (body : option value) : M value :=
  response <- fetch {| url := GHL_API_BASE ++ endpoint;
                       method := method;
                       headers := [("Authorization" : str, "Bearer " ++ apiKey);
                                   ("Content-Type" : str, "application/json" : str)];
                       request_body := option_map stringify body |} ;;
  data <- json response ;;
  if negb (ok response) then
    message <- property "message" data ;;
    throw (new_Error ("GoHighLevel API error: "
                        ++ (if truthy message then display message
                            else statusText response)))
  else ret data.

(** The [catch] clause of every handler of this server. *)
Definition on_error (error : Thrown) : M Envelope :=
  ret (failure ("Error: " ++ message_display error)).

Definition unwrap (s : option str) : str :=
  match s with Some x => x | None => [] end.

(** [contactData] of [createContact] and [updateContact]. *)
Record ContactData := {
  cd_email : option str;
  cd_phone : option str;
  cd_firstName : option str;
  cd_lastName : option str;
  cd_name : option str;
  cd_companyName : option str;
  cd_address1 : option str;
  cd_city : option str;
  cd_state : option str;
  cd_country : option str;
  cd_postalCode : option str;
  cd_source : option str;
  cd_tags : option (list str);
  cd_customField : option (list (str * value))
}.

Definition contactData_object (d : ContactData) : value :=
  object [("email" : str, jstr (cd_email d)); ("phone" : str, jstr (cd_phone d));
          ("firstName" : str, jstr (cd_firstName d));
          ("lastName" : str, jstr (cd_lastName d));
          ("name" : str, jstr (cd_name d));
          ("companyName" : str, jstr (cd_companyName d));
          ("address1" : str, jstr (cd_address1 d)); ("city" : str, jstr (cd_city d));
          ("state" : str, jstr (cd_state d)); ("country" : str, jstr (cd_country d));
          ("postalCode" : str, jstr (cd_postalCode d));
          ("source" : str, jstr (cd_source d));
          ("tags" : str, jstrings (cd_tags d));
          ("customField" : str, option_map JObj (cd_customField d))].

(** The refinement of [createContact]: [data.email || data.phone]. *)
Definition email_or_phone (d : ContactData) : bool :=
  present (cd_email d) || present (cd_phone d).

(** [taskData] of [createTask]; [completed] defaults to false. *)
Record TaskData := {
  td_title : str;
  td_description : option str;
  td_dueDate : str;
  td_completed : bool;
  td_assignedTo : option str;
  td_contactId : option str
}.

Definition taskData_object (d : TaskData) : value :=
  object [("title" : str, Some (JStr (td_title d)));
          ("description" : str, jstr (td_description d));
          ("dueDate" : str, Some (JStr (td_dueDate d)));
          ("completed" : str, Some (JBool (td_completed d)));
          ("assignedTo" : str, jstr (td_assignedTo d));
          ("contactId" : str, jstr (td_contactId d))].

(** [taskData] of [updateTask]. *)
Record TaskUpdate := {
  tu_title : option str;
  tu_description : option str;
  tu_dueDate : option str;
  tu_completed : option bool;
  tu_assignedTo : option str
}.

Definition taskUpdate_object (d : TaskUpdate) : value :=
  object [("title" : str, jstr (tu_title d));
          ("description" : str, jstr (tu_description d));
          ("dueDate" : str, jstr (tu_dueDate d));
          ("completed" : str, jbool (tu_completed d));
          ("assignedTo" : str, jstr (tu_assignedTo d))].

Record OpportunityData := {
  od_name : str;
  od_pipelineId : str;
  od_stageId : str;
  od_contactId : option str;
  od_monetaryValue : option Z;
  od_assignedTo : option str
}.

Definition opportunityData_object (d : OpportunityData) : value :=
  object [("name" : str, Some (JStr (od_name d)));
          ("pipelineId" : str, Some (JStr (od_pipelineId d)));
          ("stageId" : str, Some (JStr (od_stageId d)));
          ("contactId" : str, jstr (od_contactId d));
          ("monetaryValue" : str, jnum (od_monetaryValue d));
          ("assignedTo" : str, jstr (od_assignedTo d))].

(** [eventData] of [createCalendarEvent]; [allDay] defaults to false. *)
Record EventData := {
  ed_title : str;
  ed_description : option str;
  ed_startTime : str;
  ed_endTime : str;
  ed_calendarId : str;
  ed_contacts : option (list str);
  ed_allDay : bool
}.

Definition eventData_object (d : EventData) : value :=
  object [("title" : str, Some (JStr (ed_title d)));
          ("description" : str, jstr (ed_description d));
          ("startTime" : str, Some (JStr (ed_startTime d)));
          ("endTime" : str, Some (JStr (ed_endTime d)));
          ("calendarId" : str, Some (JStr (ed_calendarId d)));
          ("contacts" : str, jstrings (ed_contacts d));
          ("allDay" : str, Some (JBool (ed_allDay d)))].

(** [{ tags }]. *)
Definition tags_object (tags : list str) : value :=
  object [("tags" : str, Some (JArr (map JStr tags)))].

(** *** 1. getContacts; [page] defaults to 1 and [limit] to 20. *)

Definition getContacts_params (query : option str) (page limit : Z) : Url.URLSearchParams :=
  let queryParams := [] in
  let queryParams :=
    if present query then Url.append "query" (unwrap query) queryParams else queryParams in
  let queryParams :=
    if negb (Z.eqb page 0) then Url.append "page" (Num.toString page) queryParams
    else queryParams in
  let queryParams :=
    if negb (Z.eqb limit 0) then Url.append "limit" (Num.toString limit) queryParams
    else queryParams in
  queryParams.

Definition getContacts_endpoint (query : option str) (page limit : Z) : str :=
  "/contacts?" ++ Url.toString (getContacts_params query page limit).

Definition getContacts_try (apiKey : str) (query : option str) (page limit : Z) : M Envelope :=
  data <- ghlRequest apiKey (getContacts_endpoint query page limit) "GET" None ;;
  ret (success (stringify2 data)).

Definition getContacts (apiKey : str) (query : option str) (page limit : Z) : M Envelope :=
  try_catch (getContacts_try apiKey query page limit) on_error.

(** *** 2. getContact *)

Definition getContact_try (apiKey contactId : str) : M Envelope :=
  data <- ghlRequest apiKey ("/contacts/" ++ contactId) "GET" None ;;
  ret (success (stringify2 data)).

Definition getContact (apiKey contactId : str) : M Envelope :=
  try_catch (getContact_try apiKey contactId) on_error.

(** *** 3. createContact *)

Definition createContact_try (apiKey : str) (contactData : ContactData) : M Envelope :=
  data <- ghlRequest apiKey "/contacts" "POST" (Some (contactData_object contactData)) ;;
  ret (success (stringify2 data)).

Definition createContact (apiKey : str) (contactData : ContactData) : M Envelope :=
  try_catch (createContact_try apiKey contactData) on_error.

(** *** 4. updateContact *)

Definition updateContact_try (apiKey contactId : str) (contactData : ContactData) : M Envelope :=
  data <- ghlRequest apiKey ("/contacts/" ++ contactId) "PUT"
            (Some (contactData_object contactData)) ;;
  ret (success (stringify2 data)).

Definition updateContact (apiKey contactId : str) (contactData : ContactData) : M Envelope :=
  try_catch (updateContact_try apiKey contactId contactData) on_error.

(** *** 5. addContactTags *)

Definition addContactTags_try (apiKey contactId : str) (tags : list str) : M Envelope :=
  data <- ghlRequest apiKey ("/contacts/" ++ contactId ++ "/tags") "POST"
            (Some (tags_object tags)) ;;
  ret (success (stringify2 data)).

Definition addContactTags (apiKey contactId : str) (tags : list str) : M Envelope :=
  try_catch (addContactTags_try apiKey contactId tags) on_error.

(** *** 6. removeContactTags *)

Definition removeContactTags_try (apiKey contactId : str) (tags : list str) : M Envelope :=
  data <- ghlRequest apiKey ("/contacts/" ++ contactId ++ "/tags") "DELETE"
            (Some (tags_object tags)) ;;
  ret (success (stringify2 data)).

Definition removeContactTags (apiKey contactId : str) (tags : list str) : M Envelope :=
  try_catch (removeContactTags_try apiKey contactId tags) on_error.

(** *** 7. getTasks *)

Definition getTasks_params (page limit : Z) : Url.URLSearchParams :=
  let queryParams := [] in
  let queryParams :=
    if negb (Z.eqb page 0) then Url.append "page" (Num.toString page) queryParams
    else queryParams in
  let queryParams :=
    if negb (Z.eqb limit 0) then Url.append "limit" (Num.toString limit) queryParams
    else queryParams in
  queryParams.

Definition getTasks_endpoint (page limit : Z) : str :=
  "/tasks?" ++ Url.toString (getTasks_params page limit).

Definition getTasks_try (apiKey : str) (page limit : Z) : M Envelope :=
  data <- ghlRequest apiKey (getTasks_endpoint page limit) "GET" None ;;
  ret (success (stringify2 data)).

Definition getTasks (apiKey : str) (page limit : Z) : M Envelope :=
  try_catch (getTasks_try apiKey page limit) on_error.

(** *** 8. createTask *)

Definition createTask_try (apiKey : str) (taskData : TaskData) : M Envelope :=
  data <- ghlRequest apiKey "/tasks" "POST" (Some (taskData_object taskData)) ;;
  ret (success (stringify2 data)).

Definition createTask (apiKey : str) (taskData : TaskData) : M Envelope :=
  try_catch (createTask_try apiKey taskData) on_error.

(** *** 9. updateTask *)

Definition updateTask_try (apiKey taskId : str) (taskData : TaskUpdate) : M Envelope :=
  data <- ghlRequest apiKey ("/tasks/" ++ taskId) "PUT" (Some (taskUpdate_object taskData)) ;;
  ret (success (stringify2 data)).

Definition updateTask (apiKey taskId : str) (taskData : TaskUpdate) : M Envelope :=
  try_catch (updateTask_try apiKey taskId taskData) on_error.

(** *** 10. deleteTask *)

Definition deleteTask_try (apiKey taskId : str) : M Envelope :=
  data <- ghlRequest apiKey ("/tasks/" ++ taskId) "DELETE" None ;;
  ret (success (stringify2 data)).

Definition deleteTask (apiKey taskId : str) : M Envelope :=
  try_catch (deleteTask_try apiKey taskId) on_error.

(** *** 11. getOpportunities *)

Definition getOpportunities_params (pipelineId stageId : option str) (page limit : Z)
  : Url.URLSearchParams :=
  let queryParams := [] in
  let queryParams :=
    if present pipelineId then Url.append "pipelineId" (unwrap pipelineId) queryParams
    else queryParams in
  let queryParams :=
    if present stageId then Url.append "stageId" (unwrap stageId) queryParams
    else queryParams in
  let queryParams :=
    if negb (Z.eqb page 0) then Url.append "page" (Num.toString page) queryParams
    else queryParams in
  let queryParams :=
    if negb (Z.eqb limit 0) then Url.append "limit" (Num.toString limit) queryParams
    else queryParams in
  queryParams.

Definition getOpportunities_endpoint (pipelineId stageId : option str) (page limit : Z) : str :=
  "/opportunities?" ++ Url.toString (getOpportunities_params pipelineId stageId page limit).

Definition getOpportunities_try (apiKey : str) (pipelineId stageId : option str)
    (page limit : Z) : M Envelope :=
  data <- ghlRequest apiKey (getOpportunities_endpoint pipelineId stageId page limit)
            "GET" None ;;
  ret (success (stringify2 data)).

Definition getOpportunities (apiKey : str) (pipelineId stageId : option str)
    (page limit : Z) : M Envelope :=
  try_catch (getOpportunities_try apiKey pipelineId stageId page limit) on_error.

(** *** 12. createOpportunity *)

Definition createOpportunity_try (apiKey : str) (opportunityData : OpportunityData)
  : M Envelope :=
  data <- ghlRequest apiKey "/opportunities" "POST"
            (Some (opportunityData_object opportunityData)) ;;
  ret (success (stringify2 data)).

Definition createOpportunity (apiKey : str) (opportunityData : OpportunityData)
  : M Envelope :=
  try_catch (createOpportunity_try apiKey opportunityData) on_error.

(** *** 13. getPipelines *)

Definition getPipelines_try (apiKey : str) : M Envelope :=
  data <- ghlRequest apiKey "/pipelines" "GET" None ;;
  ret (success (stringify2 data)).

Definition getPipelines (apiKey : str) : M Envelope :=
  try_catch (getPipelines_try apiKey) on_error.

(** *** 14. createCalendarEvent *)

Definition createCalendarEvent_try (apiKey : str) (eventData : EventData) : M Envelope :=
  data <- ghlRequest apiKey "/calendars/events" "POST" (Some (eventData_object eventData)) ;;
  ret (success (stringify2 data)).

Definition createCalendarEvent (apiKey : str) (eventData : EventData) : M Envelope :=
  try_catch (createCalendarEvent_try apiKey eventData) on_error.

(** *** 15. getCalendars *)

Definition getCalendars_try (apiKey : str) : M Envelope :=
  data <- ghlRequest apiKey "/calendars" "GET" None ;;
  ret (success (stringify2 data)).

Definition getCalendars (apiKey : str) : M Envelope :=
  try_catch (getCalendars_try apiKey) on_error.

(** A call of one of the tools, with its validated input. *)
Inductive Tool :=
| GetContacts (apiKey : str) (query : option str) (page limit : Z)
| GetContact (apiKey contactId : str)
| CreateContact (apiKey : str) (contactData : ContactData)
| UpdateContact (apiKey contactId : str) (contactData : ContactData)
| AddContactTags (apiKey contactId : str) (tags : list str)
| RemoveContactTags (apiKey contactId : str) (tags : list str)
| GetTasks (apiKey : str) (page limit : Z)
| CreateTask (apiKey : str) (taskData : TaskData)
| UpdateTask (apiKey taskId : str) (taskData : TaskUpdate)
| DeleteTask (apiKey taskId : str)
| GetOpportunities (apiKey : str) (pipelineId stageId : option str) (page limit : Z)
| CreateOpportunity (apiKey : str) (opportunityData : OpportunityData)
| GetPipelines (apiKey : str)
| CreateCalendarEvent (apiKey : str) (eventData : EventData)
| GetCalendars (apiKey : str).

(** The [try] block of the tool's handler. *)
Definition attempt (t : Tool) : M Envelope :=
  match t with
  | GetContacts k q p l => getContacts_try k q p l
  | GetContact k c => getContact_try k c
  | CreateContact k d => createContact_try k d
  | UpdateContact k c d => updateContact_try k c d
  | AddContactTags k c ts => addContactTags_try k c ts
  | RemoveContactTags k c ts => removeContactTags_try k c ts
  | GetTasks k p l => getTasks_try k p l
  | CreateTask k d => createTask_try k d
  | UpdateTask k i d => updateTask_try k i d
  | DeleteTask k i => deleteTask_try k i
  | GetOpportunities k a b p l => getOpportunities_try k a b p l
  | CreateOpportunity k d => createOpportunity_try k d
  | GetPipelines k => getPipelines_try k
  | CreateCalendarEvent k d => createCalendarEvent_try k d
  | GetCalendars k => getCalendars_try k
  end.

Definition handler (t : Tool) : M Envelope :=
  match t with
  | GetContacts k q p l => getContacts k q p l
  | GetContact k c => getContact k c
  | CreateContact k d => createContact k d
  | UpdateContact k c d => updateContact k c d
  | AddContactTags k c ts => addContactTags k c ts
  | RemoveContactTags k c ts => removeContactTags k c ts
  | GetTasks k p l => getTasks k p l
  | CreateTask k d => createTask k d
  | UpdateTask k i d => updateTask k i d
  | DeleteTask k i => deleteTask k i
  | GetOpportunities k a b p l => getOpportunities k a b p l
  | CreateOpportunity k d => createOpportunity k d
  | GetPipelines k => getPipelines k
  | CreateCalendarEvent k d => createCalendarEvent k d
  | GetCalendars k => getCalendars k
  end.


End GoHighLevel.

(** ** The HubSpot server *)

Module HubSpot.

Definition bearer_headers (apiKey : str) : list (str * str) :=
  [("Authorization" : str, "Bearer " ++ apiKey);
   ("Content-Type" : str, "application/json" : str)].

(** [`${response.status} ${response.statusText}\n${errorText}`]. *)
Definition status_report (response : Response) (errorText : str) : str :=
  Num.toString (status response) ++ " " ++ statusText response ++ newline :: errorText.

(** [properties.map(p => `properties=${encodeURIComponent(p)}`).join('&')]. *)
Definition propertiesQuery (properties : list str) : str :=
  join "&" (map (fun p => "properties=" ++ Url.encodeURIComponent p) properties).

(** [{ properties }] for a record of strings. *)
Definition properties_object (properties : list (str * str)) : value :=
  object [("properties" : str,
           Some (JObj (map (fun kv => (fst kv, JStr (snd kv))) properties)))].

(** *** hubspot-list-contacts; [limit] defaults to 10, [properties] to
    email, firstname, lastname. *)

Definition list_contacts_url (limit : Z) (properties : list str) : str :=
  "https://api.hubapi.com/crm/v3/objects/contacts?limit=" ++ Num.toString limit
    ++ "&" ++ propertiesQuery properties.

Definition list_contacts_try (apiKey : str) (limit : Z) (properties : list str) : M Envelope :=
  response <- fetch {| url := list_contacts_url limit properties; method := "GET";
                       headers := bearer_headers apiKey; request_body := None |} ;;
  if negb (ok response) then
    errorText <- text_of response ;;
    ret (failure ("Error fetching Hubspot contacts: " ++ status_report response errorText))
  else
    data <- json response ;;
    ret (success (stringify2 data)).

Definition list_contacts_catch (error : Thrown) : M Envelope :=
  ret (failure ("Error fetching Hubspot contacts: " ++ message_or_string error)).

Definition list_contacts (apiKey : str) (limit : Z) (properties : list str) : M Envelope :=
  try_catch (list_contacts_try apiKey limit properties) list_contacts_catch.

(** *** hubspot-get-contact *)

Definition get_contact_url (contactId : str) (properties : list str) : str :=
  "https://api.hubapi.com/crm/v3/objects/contacts/" ++ contactId
    ++ "?" ++ propertiesQuery properties.

Definition get_contact_try (apiKey contactId : str) (properties : list str) : M Envelope :=
  response <- fetch {| url := get_contact_url contactId properties; method := "GET";
                       headers := bearer_headers apiKey; request_body := None |} ;;
  if negb (ok response) then
    errorText <- text_of response ;;
    ret (failure ("Error fetching Hubspot contact: " ++ status_report response errorText))
  else
    data <- json response ;;
    ret (success (stringify2 data)).

Definition get_contact_catch (error : Thrown) : M Envelope :=
  ret (failure ("Error fetching Hubspot contact: " ++ message_or_string error)).

Definition get_contact (apiKey contactId : str) (properties : list str) : M Envelope :=
  try_catch (get_contact_try apiKey contactId properties) get_contact_catch.

(** *** hubspot-create-contact *)

Definition create_contact_try (apiKey : str) (properties : list (str * str)) : M Envelope :=
  response <- fetch {| url := "https://api.hubapi.com/crm/v3/objects/contacts";
                       method := "POST"; headers := bearer_headers apiKey;
                       request_body := Some (stringify (properties_object properties)) |} ;;
  if negb (ok response) then
    errorText <- text_of response ;;
    ret (failure ("Error creating Hubspot contact: " ++ status_report response errorText))
  else
    data <- json response ;;
    ret (success (stringify2 data)).

Definition create_contact_catch (error : Thrown) : M Envelope :=
  ret (failure ("Error creating Hubspot contact: " ++ message_or_string error)).

Definition create_contact (apiKey : str) (properties : list (str * str)) : M Envelope :=
  try_catch (create_contact_try apiKey properties) create_contact_catch.

(** *** hubspot-update-contact *)

Definition update_contact_try (apiKey contactId : str) (properties : list (str * str))
  : M Envelope :=
  response <- fetch {| url := "https://api.hubapi.com/crm/v3/objects/contacts/" ++ contactId;
                       method := "PATCH"; headers := bearer_headers apiKey;
                       request_body := Some (stringify (properties_object properties)) |} ;;
  if negb (ok response) then
    errorText <- text_of response ;;
    ret (failure ("Error updating Hubspot contact: " ++ status_report response errorText))
  else
    data <- json response ;;
    ret (success (stringify2 data)).

Definition update_contact_catch (error : Thrown) : M Envelope :=
  ret (failure ("Error updating Hubspot contact: " ++ message_or_string error)).

Definition update_contact (apiKey contactId : str) (properties : list (str * str))
  : M Envelope :=
  try_catch (update_contact_try apiKey contactId properties) update_contact_catch.

(** *** hubspot-search-contacts *)

Definition search_body (query : str) (limit : Z) (properties : list str) : value :=
  object
    [("filterGroups" : str,
      Some (JArr [object
        [("filters" : str,
          Some (JArr [object [("propertyName" : str, Some (JStr "email"));
                              ("operator" : str, Some (JStr "CONTAINS_TOKEN"));
                              ("value" : str, Some (JStr query))]]))]]));
     ("properties" : str, Some (JArr (map JStr properties)));
     ("limit" : str, Some (JNum limit))].

Definition search_contacts_try (apiKey query : str) (limit : Z) (properties : list str)
  : M Envelope :=
  response <- fetch {| url := "https://api.hubapi.com/crm/v3/objects/contacts/search";
                       method := "POST"; headers := bearer_headers apiKey;
                       request_body := Some (stringify (search_body query limit properties)) |} ;;
  if negb (ok response) then
    errorText <- text_of response ;;
    ret (failure ("Error searching Hubspot contacts: " ++ status_report response errorText))
  else
    data <- json response ;;
    ret (success (stringify2 data)).

Definition search_contacts_catch (error : Thrown) : M Envelope :=
  ret (failure ("Error searching Hubspot contacts: " ++ message_or_string error)).

Definition search_contacts (apiKey query : str) (limit : Z) (properties : list str)
  : M Envelope :=
  try_catch (search_contacts_try apiKey query limit properties) search_contacts_catch.

(** *** hubspot-list-deals *)

Definition list_deals_url (limit : Z) (properties : list str) : str :=
  "https://api.hubapi.com/crm/v3/objects/deals?limit=" ++ Num.toString limit
    ++ "&" ++ propertiesQuery properties.

Definition list_deals_try (apiKey : str) (limit : Z) (properties : list str) : M Envelope :=
  response <- fetch {| url := list_deals_url limit properties; method := "GET";
                       headers := bearer_headers apiKey; request_body := None |} ;;
  if negb (ok response) then
    errorText <- text_of response ;;
    ret (failure ("Error fetching Hubspot deals: " ++ status_report response errorText))
  else
    data <- json response ;;
    ret (success (stringify2 data)).

Definition list_deals_catch (error : Thrown) : M Envelope :=
  ret (failure ("Error fetching Hubspot deals: " ++ message_or_string error)).

Definition list_deals (apiKey : str) (limit : Z) (properties : list str) : M Envelope :=
  try_catch (list_deals_try apiKey limit properties) list_deals_catch.

Inductive Tool :=
| ListContacts (apiKey : str) (limit : Z) (properties : list str)
| GetContact (apiKey contactId : str) (properties : list str)
| CreateContact (apiKey : str) (properties : list (str * str))
| UpdateContact (apiKey contactId : str) (properties : list (str * str))
| SearchContacts (apiKey query : str) (limit : Z) (properties : list str)
| ListDeals (apiKey : str) (limit : Z) (properties : list str).

Definition attempt (t : Tool) : M Envelope :=
  match t with
  | ListContacts k l ps => list_contacts_try k l ps
  | GetContact k c ps => get_contact_try k c ps
  | CreateContact k ps => create_contact_try k ps
  | UpdateContact k c ps => update_contact_try k c ps
  | SearchContacts k q l ps => search_contacts_try k q l ps
  | ListDeals k l ps => list_deals_try k l ps
  end.

Definition handler (t : Tool) : M Envelope :=
  match t with
  | ListContacts k l ps => list_contacts k l ps
  | GetContact k c ps => get_contact k c ps
  | CreateContact k ps => create_contact k ps
  | UpdateContact k c ps => update_contact k c ps
  | SearchContacts k q l ps => search_contacts k q l ps
  | ListDeals k l ps => list_deals k l ps
  end.

(** The words a handler's error texts start with. *)
Definition label (t : Tool) : str :=
  match t with
  | ListContacts _ _ _ => "Error fetching Hubspot contacts: "
  | GetContact _ _ _ => "Error fetching Hubspot contact: "
  | CreateContact _ _ => "Error creating Hubspot contact: "
  | UpdateContact _ _ _ => "Error updating Hubspot contact: "
  | SearchContacts _ _ _ _ => "Error searching Hubspot contacts: "
  | ListDeals _ _ _ => "Error fetching Hubspot deals: "
  end.

End HubSpot.

(** ** The Keap server *)

Module Keap.

Definition bearer_headers (apiKey : str) : list (str * str) :=
  [("Authorization" : str, "Bearer " ++ apiKey);
   ("Content-Type" : str, "application/json" : str)].

Definition status_report (response : Response) (errorText : str) : str :=
  Num.toString (status response) ++ " " ++ statusText response ++ newline :: errorText.

Record PhoneNumber := {
  pn_type : str;
  pn_number : str
}.

Record Address := {
  ad_field_type : str;
  ad_line1 : option str;
  ad_city : option str;
  ad_state : option str;
  ad_postal_code : option str;
  ad_country : option str
}.

(** [contact] of [keap-create-contact] and [keap-update-contact]. *)
Record Contact := {
  c_email : option str;
  c_given_name : option str;
  c_family_name : option str;
  c_phone_numbers : option (list PhoneNumber);
  c_addresses : option (list Address)
}.

Definition phone_object (p : PhoneNumber) : value :=
  object [("type" : str, Some (JStr (pn_type p)));
          ("number" : str, Some (JStr (pn_number p)))].

Definition address_object (a : Address) : value :=
  object [("field_type" : str, Some (JStr (ad_field_type a)));
          ("line1" : str, jstr (ad_line1 a)); ("city" : str, jstr (ad_city a));
          ("state" : str, jstr (ad_state a));
          ("postal_code" : str, jstr (ad_postal_code a));
          ("country" : str, jstr (ad_country a))].

Definition contact_object (c : Contact) : value :=
  object [("email" : str, jstr (c_email c));
          ("given_name" : str, jstr (c_given_name c));
          ("family_name" : str, jstr (c_family_name c));
          ("phone_numbers" : str,
           option_map (fun l => JArr (map phone_object l)) (c_phone_numbers c));
          ("addresses" : str,
           option_map (fun l => JArr (map address_object l)) (c_addresses c))].

(** *** keap-list-contacts; [limit] defaults to 10, [fields] to email,
    given_name, family_name. *)

Definition list_contacts_url (limit : Z) (fields : list str) : str :=
  let fieldsQuery := join "," fields in
  "https://api.infusionsoft.com/crm/rest/v1/contacts?limit=" ++ Num.toString limit
    ++ "&fields=" ++ fieldsQuery.

Definition list_contacts_try (apiKey : str) (limit : Z) (fields : list str) : M Envelope :=
  response <- fetch {| url := list_contacts_url limit fields; method := "GET";
                       headers := bearer_headers apiKey; request_body := None |} ;;
  if negb (ok response) then
    errorText <- text_of response ;;
    ret (failure ("Error fetching Keap contacts: " ++ status_report response errorText))
  else
    data <- json response ;;
    ret (success (stringify2 data)).

Definition list_contacts_catch (error : Thrown) : M Envelope :=
  ret (failure ("Error fetching Keap contacts: " ++ message_or_string error)).

Definition list_contacts (apiKey : str) (limit : Z) (fields : list str) : M Envelope :=
  try_catch (list_contacts_try apiKey limit fields) list_contacts_catch.

(** *** keap-get-contact *)

Definition get_contact_url (contactId : str) (fields : list str) : str :=
  let fieldsQuery := join "," fields in
  "https://api.infusionsoft.com/crm/rest/v1/contacts/" ++ contactId
    ++ "?fields=" ++ fieldsQuery.

Definition get_contact_try (apiKey contactId : str) (fields : list str) : M Envelope :=
  response <- fetch {| url := get_contact_url contactId fields; method := "GET";
                       headers := bearer_headers apiKey; request_body := None |} ;;
  if negb (ok response) then
    errorText <- text_of response ;;
    ret (failure ("Error fetching Keap contact: " ++ status_report response errorText))
  else
    data <- json response ;;
    ret (success (stringify2 data)).

Definition get_contact_catch (error : Thrown) : M Envelope :=
  ret (failure ("Error fetching Keap contact: " ++ message_or_string error)).

Definition get_contact (apiKey contactId : str) (fields : list str) : M Envelope :=
  try_catch (get_contact_try apiKey contactId fields) get_contact_catch.

(** *** keap-create-contact *)

Definition create_contact_try (apiKey : str) (contact : Contact) : M Envelope :=
  response <- fetch {| url := "https://api.infusionsoft.com/crm/rest/v1/contacts";
                       method := "POST"; headers := bearer_headers apiKey;
                       request_body := Some (stringify (contact_object contact)) |} ;;
  if negb (ok response) then
    errorText <- text_of response ;;
    ret (failure ("Error creating Keap contact: " ++ status_report response errorText))
  else
    data <- json response ;;
    ret (success (stringify2 data)).

Definition create_contact_catch (error : Thrown) : M Envelope :=
  ret (failure ("Error creating Keap contact: " ++ message_or_string error)).

Definition create_contact (apiKey : str) (contact : Contact) : M Envelope :=
  try_catch (create_contact_try apiKey contact) create_contact_catch.

(** *** keap-update-contact *)

Definition update_contact_try (apiKey contactId : str) (contact : Contact) : M Envelope :=
  response <- fetch {| url := "https://api.infusionsoft.com/crm/rest/v1/contacts/" ++ contactId;
                       method := "PATCH"; headers := bearer_headers apiKey;
                       request_body := Some (stringify (contact_object contact)) |} ;;
  if negb (ok response) then
    errorText <- text_of response ;;
    ret (failure ("Error updating Keap contact: " ++ status_report response errorText))
  else
    data <- json response ;;
    ret (success (stringify2 data)).

Definition update_contact_catch (error : Thrown) : M Envelope :=
  ret (failure ("Error updating Keap contact: " ++ message_or_string error)).

Definition update_contact (apiKey contactId : str) (contact : Contact) : M Envelope :=
  try_catch (update_contact_try apiKey contactId contact) update_contact_catch.

(** *** keap-search-contacts *)

(** [query.includes('@') ? `email=...` : `given_name=...`]. *)
Definition searchParam (query : str) : str :=
  if includes "@" query then "email=" ++ Url.encodeURIComponent query
  else "given_name=" ++ Url.encodeURIComponent query.

Definition search_contacts_url (query : str) (limit : Z) (fields : list str) : str :=
  let fieldsQuery := join "," fields in
  "https://api.infusionsoft.com/crm/rest/v1/contacts?" ++ searchParam query
    ++ "&limit=" ++ Num.toString limit ++ "&fields=" ++ fieldsQuery.

Definition search_contacts_try (apiKey query : str) (limit : Z) (fields : list str)
  : M Envelope :=
  response <- fetch {| url := search_contacts_url query limit fields; method := "GET";
                       headers := bearer_headers apiKey; request_body := None |} ;;
  if negb (ok response) then
    errorText <- text_of response ;;
    ret (failure ("Error searching Keap contacts: " ++ status_report response errorText))
  else
    data <- json response ;;
    ret (success (stringify2 data)).

Definition search_contacts_catch (error : Thrown) : M Envelope :=
  ret (failure ("Error searching Keap contacts: " ++ message_or_string error)).

Definition search_contacts (apiKey query : str) (limit : Z) (fields : list str)
  : M Envelope :=
  try_catch (search_contacts_try apiKey query limit fields) search_contacts_catch.

(** *** keap-list-opportunities; [fields] defaults to title, stage,
    contact, estimated_close_date. *)

Definition list_opportunities_url (limit : Z) (fields : list str) : str :=
  let fieldsQuery := join "," fields in
  "https://api.infusionsoft.com/crm/rest/v1/opportunities?limit=" ++ Num.toString limit
    ++ "&fields=" ++ fieldsQuery.

Definition list_opportunities_try (apiKey : str) (limit : Z) (fields : list str)
  : M Envelope :=
  response <- fetch {| url := list_opportunities_url limit fields; method := "GET";
                       headers := bearer_headers apiKey; request_body := None |} ;;
  if negb (ok response) then
    errorText <- text_of response ;;
    ret (failure ("Error fetching Keap opportunities: " ++ status_report response errorText))
  else
    data <- json response ;;
    ret (success (stringify2 data)).

Definition list_opportunities_catch (error : Thrown) : M Envelope :=
  ret (failure ("Error fetching Keap opportunities: " ++ message_or_string error)).

Definition list_opportunities (apiKey : str) (limit : Z) (fields : list str) : M Envelope :=
  try_catch (list_opportunities_try apiKey limit fields) list_opportunities_catch.

Inductive Tool :=
| ListContacts (apiKey : str) (limit : Z) (fields : list str)
| GetContact (apiKey contactId : str) (fields : list str)
| CreateContact (apiKey : str) (contact : Contact)
| UpdateContact (apiKey contactId : str) (contact : Contact)
| SearchContacts (apiKey query : str) (limit : Z) (fields : list str)
| ListOpportunities (apiKey : str) (limit : Z) (fields : list str).

Definition attempt (t : Tool) : M Envelope :=
  match t with
  | ListContacts k l fs => list_contacts_try k l fs
  | GetContact k c fs => get_contact_try k c fs
  | CreateContact k c => create_contact_try k c
  | UpdateContact k i c => update_contact_try k i c
  | SearchContacts k q l fs => search_contacts_try k q l fs
  | ListOpportunities k l fs => list_opportunities_try k l fs
  end.

Definition handler (t : Tool) : M Envelope :=
  match t with
  | ListContacts k l fs => list_contacts k l fs
  | GetContact k c fs => get_contact k c fs
  | CreateContact k c => create_contact k c
  | UpdateContact k i c => update_contact k i c
  | SearchContacts k q l fs => search_contacts k q l fs
  | ListOpportunities k l fs => list_opportunities k l fs
  end.

(** The words a handler's error texts start with. *)
Definition label (t : Tool) : str :=
  match t with
  | ListContacts _ _ _ => "Error fetching Keap contacts: "
  | GetContact _ _ _ => "Error fetching Keap contact: "
  | CreateContact _ _ => "Error creating Keap contact: "
  | UpdateContact _ _ _ => "Error updating Keap contact: "
  | SearchContacts _ _ _ _ => "Error searching Keap contacts: "
  | ListOpportunities _ _ _ => "Error fetching Keap opportunities: "
  end.


End Keap.

(** ** The Pipedrive server *)

Module Pipedrive.

(** [isErrorWithMessage]: an object with a string [message]. *)
Definition isErrorWithMessage (error : Thrown) : bool :=
  match error with
  | ThrownError _ => true
  | ThrownString _ => false
  end.

Definition getErrorMessage (error : Thrown) : str :=
  if isErrorWithMessage error then
    match error with
    | ThrownError o => message o
    | ThrownString s => s
    end
  else message_or_string error.

(** Every handler replies with
    [JSON.stringify(response.data, null, 2)]; the [console.error] of the
    [catch] clauses writes to the standard error stream and is left out. *)
Definition reply_data (response : value) : M Envelope :=
  data <- property "data" response ;;
  ret (reply (stringify2_opt data)).

Definition getAllPersons_try : M Envelope :=
  response <- pipedrive_call GetPersons ;;
  reply_data response.

Definition getAllPersons_catch (error : Thrown) : M Envelope :=
  ret (failure ("Error fetching persons: " ++ getErrorMessage error)).

Definition getAllPersons : M Envelope :=
  try_catch getAllPersons_try getAllPersons_catch.

Definition getPersonByID_try (personId : Z) : M Envelope :=
  response <- pipedrive_call (GetPerson personId) ;;
  reply_data response.

Definition getPersonByID_catch (personId : Z) (error : Thrown) : M Envelope :=
  ret (failure ("Error fetching person " ++ Num.toString personId ++ ": "
                  ++ getErrorMessage error)).

Definition getPersonByID (personId : Z) : M Envelope :=
  try_catch (getPersonByID_try personId) (getPersonByID_catch personId).

Definition searchPersons_try (term : str) : M Envelope :=
  response <- pipedrive_call (SearchPersons term) ;;
  reply_data response.

Definition searchPersons_catch (error : Thrown) : M Envelope :=
  ret (failure ("Error searching persons: " ++ getErrorMessage error)).

Definition searchPersons (term : str) : M Envelope :=
  try_catch (searchPersons_try term) searchPersons_catch.

Definition getAllOrganizations_try : M Envelope :=
  response <- pipedrive_call GetOrganizations ;;
  reply_data response.

Definition getAllOrganizations_catch (error : Thrown) : M Envelope :=
  ret (failure ("Error fetching organizations: " ++ getErrorMessage error)).

Definition getAllOrganizations : M Envelope :=
  try_catch getAllOrganizations_try getAllOrganizations_catch.

Definition getOrganizationByID_try (organizationId : Z) : M Envelope :=
  response <- pipedrive_call (GetOrganization organizationId) ;;
  reply_data response.

Definition getOrganizationByID_catch (organizationId : Z) (error : Thrown) : M Envelope :=
  ret (failure ("Error fetching organization " ++ Num.toString organizationId ++ ": "
                  ++ getErrorMessage error)).

Definition getOrganizationByID (organizationId : Z) : M Envelope :=
  try_catch (getOrganizationByID_try organizationId)
            (getOrganizationByID_catch organizationId).

Definition searchOrganizations_try (term : str) : M Envelope :=
  response <- pipedrive_call (SearchOrganizations term) ;;
  reply_data response.

Definition searchOrganizations_catch (error : Thrown) : M Envelope :=
  ret (failure ("Error searching organizations: " ++ getErrorMessage error)).

Definition searchOrganizations (term : str) : M Envelope :=
  try_catch (searchOrganizations_try term) searchOrganizations_catch.

Inductive Tool :=
| GetAllPersons
| GetPersonByID (personId : Z)
| SearchPersonsTool (term : str)
| GetAllOrganizations
| GetOrganizationByID (organizationId : Z)
| SearchOrganizationsTool (term : str).

Definition attempt (t : Tool) : M Envelope :=
  match t with
  | GetAllPersons => getAllPersons_try
  | GetPersonByID i => getPersonByID_try i
  | SearchPersonsTool q => searchPersons_try q
  | GetAllOrganizations => getAllOrganizations_try
  | GetOrganizationByID i => getOrganizationByID_try i
  | SearchOrganizationsTool q => searchOrganizations_try q
  end.

Definition handler (t : Tool) : M Envelope :=
  match t with
  | GetAllPersons => getAllPersons
  | GetPersonByID i => getPersonByID i
  | SearchPersonsTool q => searchPersons q
  | GetAllOrganizations => getAllOrganizations
  | GetOrganizationByID i => getOrganizationByID i
  | SearchOrganizationsTool q => searchOrganizations q
  end.

(** The words a handler's error texts start with. *)
Definition label (t : Tool) : str :=
  match t with
  | GetAllPersons => "Error fetching persons: "
  | GetPersonByID personId => "Error fetching person " ++ Num.toString personId ++ ": "
  | SearchPersonsTool _ => "Error searching persons: "
  | GetAllOrganizations => "Error fetching organizations: "
  | GetOrganizationByID organizationId =>
      "Error fetching organization " ++ Num.toString organizationId ++ ": "
  | SearchOrganizationsTool _ => "Error searching organizations: "
  end.

End Pipedrive.

(** ** The Freshworks server (Freshdesk and Freshchat) *)

Module Freshworks.

(** [handleApiError]. *)
Definition handleApiError (error : Thrown) : str :=
  match error with
  | ThrownError {| message := m; response := Some r |} =>
      "API Error (" ++ Num.toString (ax_status r) ++ "): " ++ stringify (ax_data r)
  | ThrownError {| message := m; response := None |} =>
      "Error: " ++ (if is_empty m then "Unknown error" else m)
  | ThrownString _ => "Error: Unknown error"
  end.

(** The [catch] clause of every handler of this server. *)
Definition on_error (error : Thrown) : M Envelope :=
  ret (failure (handleApiError error)).

Record ApiClient := {
  client_baseURL : str;
  client_headers : list (str * str)
}.

(** [createApiClient]: [axios.create] sends nothing. *)
Definition createApiClient (apiKey baseUrl : str) : ApiClient :=
  {| client_baseURL := baseUrl;
     client_headers := [("Authorization" : str, "Bearer " ++ apiKey);
                        ("Content-Type" : str, "application/json" : str)] |}.

Definition client_get (c : ApiClient) (path : str) (ps : list (str * value))
  : M AxiosResponse :=
  axios_request {| baseURL := client_baseURL c; ax_headers := client_headers c;
                   ax_method := "get"; ax_url := path; params := ps; data := None |}.

Definition client_post (c : ApiClient) (path : str) (payload : value) : M AxiosResponse :=
  axios_request {| baseURL := client_baseURL c; ax_headers := client_headers c;
                   ax_method := "post"; ax_url := path; params := [];
                   data := Some payload |}.

Definition client_put (c : ApiClient) (path : str) (payload : value) : M AxiosResponse :=
  axios_request {| baseURL := client_baseURL c; ax_headers := client_headers c;
                   ax_method := "put"; ax_url := path; params := [];
                   data := Some payload |}.

Definition freshdesk (subdomain : str) : str :=
  "https://" ++ subdomain ++ ".freshdesk.com/api/v2".

Definition freshchat (domain : str) : str := "https://" ++ domain ++ "/v2".

(** A confirmation line, an empty line, then the response data. *)
Definition confirmed (line : str) (d : value) : str :=
  line ++ newline :: newline :: stringify2 d.

(** [if (x) payload.k = x] for a string. *)
Definition when_present (k : str) (x : option str) : props :=
  if present x then [(k, jstr x)] else [].

(** *** freshdesk-list-tickets; [page] defaults to 1, [perPage] to 30. *)

Definition list_tickets_params (page perPage : Z) (filter : option str) : list (str * value) :=
  defined ([("page" : str, Some (JNum page)); ("per_page" : str, Some (JNum perPage))]
             ++ when_present "filter" filter).

Definition list_tickets_try (apiKey subdomain : str) (page perPage : Z) (filter : option str)
  : M Envelope :=
  let client := createApiClient apiKey (freshdesk subdomain) in
  response <- client_get client "/tickets" (list_tickets_params page perPage filter) ;;
  ret (success (stringify2 (ax_data response))).

Definition list_tickets (apiKey subdomain : str) (page perPage : Z) (filter : option str)
  : M Envelope :=
  try_catch (list_tickets_try apiKey subdomain page perPage filter) on_error.

(** *** freshdesk-get-ticket *)

Definition get_ticket_try (apiKey subdomain : str) (ticketId : Z) : M Envelope :=
  let client := createApiClient apiKey (freshdesk subdomain) in
  response <- client_get client ("/tickets/" ++ Num.toString ticketId) [] ;;
  ret (success (stringify2 (ax_data response))).

Definition get_ticket (apiKey subdomain : str) (ticketId : Z) : M Envelope :=
  try_catch (get_ticket_try apiKey subdomain ticketId) on_error.

(** *** freshdesk-create-ticket; [priority] and [status] default to 2. *)

Definition create_ticket_payload (subject description email : str) (priority status : Z)
    (tags : option (list str)) : value :=
  object [("subject" : str, Some (JStr subject));
          ("description" : str, Some (JStr description));
          ("email" : str, Some (JStr email));
          ("priority" : str, Some (JNum priority));
          ("status" : str, Some (JNum status));
          ("tags" : str, jstrings tags)].

Definition create_ticket_try (apiKey subdomain subject description email : str)
    (priority status : Z) (tags : option (list str)) : M Envelope :=
  let client := createApiClient apiKey (freshdesk subdomain) in
  let payload := create_ticket_payload subject description email priority status tags in
  response <- client_post client "/tickets" payload ;;
  id <- property "id" (ax_data response) ;;
  ret (success (confirmed ("Ticket created successfully with ID: " ++ display id)
                          (ax_data response))).

Definition create_ticket (apiKey subdomain subject description email : str)
    (priority status : Z) (tags : option (list str)) : M Envelope :=
  try_catch (create_ticket_try apiKey subdomain subject description email priority status tags)
            on_error.

(** *** freshdesk-update-ticket *)

(** The rest object [updateData], and the copy of its defined entries. *)
Definition update_ticket_payload (subject description : option str)
    (priority status : option Z) (tags : option (list str)) : value :=
  let updateData : props :=
    [("subject" : str, jstr subject); ("description" : str, jstr description);
     ("priority" : str, jnum priority); ("status" : str, jnum status);
     ("tags" : str, jstrings tags)] in
  JObj (defined updateData).

Definition update_ticket_try (apiKey subdomain : str) (ticketId : Z)
    (subject description : option str) (priority status : option Z)
    (tags : option (list str)) : M Envelope :=
  let client := createApiClient apiKey (freshdesk subdomain) in
  let payload := update_ticket_payload subject description priority status tags in
  response <- client_put client ("/tickets/" ++ Num.toString ticketId) payload ;;
  ret (success (confirmed ("Ticket " ++ Num.toString ticketId ++ " updated successfully")
                          (ax_data response))).

Definition update_ticket (apiKey subdomain : str) (ticketId : Z)
    (subject description : option str) (priority status : option Z)
    (tags : option (list str)) : M Envelope :=
  try_catch (update_ticket_try apiKey subdomain ticketId subject description priority
               status tags) on_error.

(** *** freshdesk-add-note; [isPrivate] defaults to true. *)

Definition add_note_try (apiKey subdomain : str) (ticketId : Z) (body : str)
    (isPrivate : bool) : M Envelope :=
  let client := createApiClient apiKey (freshdesk subdomain) in
  let payload := object [("body" : str, Some (JStr body));
                         ("private" : str, Some (JBool isPrivate))] in
  response <- client_post client ("/tickets/" ++ Num.toString ticketId ++ "/notes") payload ;;
  ret (success (confirmed ("Note added successfully to ticket " ++ Num.toString ticketId)
                          (ax_data response))).

Definition add_note (apiKey subdomain : str) (ticketId : Z) (body : str)
    (isPrivate : bool) : M Envelope :=
  try_catch (add_note_try apiKey subdomain ticketId body isPrivate) on_error.

(** *** freshdesk-list-contacts *)

Definition list_contacts_params (page perPage : Z) : list (str * value) :=
  defined [("page" : str, Some (JNum page)); ("per_page" : str, Some (JNum perPage))].

Definition list_contacts_try (apiKey subdomain : str) (page perPage : Z) : M Envelope :=
  let client := createApiClient apiKey (freshdesk subdomain) in
  response <- client_get client "/contacts" (list_contacts_params page perPage) ;;
  ret (success (stringify2 (ax_data response))).

Definition list_contacts (apiKey subdomain : str) (page perPage : Z) : M Envelope :=
  try_catch (list_contacts_try apiKey subdomain page perPage) on_error.

(** *** freshdesk-get-contact *)

Definition get_contact_try (apiKey subdomain : str) (contactId : Z) : M Envelope :=
  let client := createApiClient apiKey (freshdesk subdomain) in
  response <- client_get client ("/contacts/" ++ Num.toString contactId) [] ;;
  ret (success (stringify2 (ax_data response))).

Definition get_contact (apiKey subdomain : str) (contactId : Z) : M Envelope :=
  try_catch (get_contact_try apiKey subdomain contactId) on_error.

(** *** freshdesk-create-contact *)

Definition create_contact_payload (name email : str)
    (phone mobilePhone twitterId companyName description : option str) : value :=
  object
    ([("name" : str, Some (JStr name)); ("email" : str, Some (JStr email))]
       ++ when_present "phone" phone
       ++ when_present "mobile" mobilePhone
       ++ when_present "twitter_id" twitterId
       ++ when_present "description" description
       ++ (if present companyName then
             [("company_id" : str, Some JNull);
              ("other_companies" : str,
               Some (JArr [object [("name" : str, jstr companyName)]]))]
           else [])).

Definition create_contact_try (apiKey subdomain name email : str)
    (phone mobilePhone twitterId companyName description : option str) : M Envelope :=
  let client := createApiClient apiKey (freshdesk subdomain) in
  let payload :=
    create_contact_payload name email phone mobilePhone twitterId companyName description in
  response <- client_post client "/contacts" payload ;;
  id <- property "id" (ax_data response) ;;
  ret (success (confirmed ("Contact created successfully with ID: " ++ display id)
                          (ax_data response))).

Definition create_contact (apiKey subdomain name email : str)
    (phone mobilePhone twitterId companyName description : option str) : M Envelope :=
  try_catch (create_contact_try apiKey subdomain name email phone mobilePhone twitterId
               companyName description) on_error.

(** *** freshdesk-update-contact *)

Definition update_contact_payload
    (name email phone mobilePhone twitterId description : option str) : value :=
  object (when_present "name" name ++ when_present "email" email
            ++ when_present "phone" phone ++ when_present "mobile" mobilePhone
            ++ when_present "twitter_id" twitterId
            ++ when_present "description" description).

Definition update_contact_try (apiKey subdomain : str) (contactId : Z)
    (name email phone mobilePhone twitterId description : option str) : M Envelope :=
  let client := createApiClient apiKey (freshdesk subdomain) in
  let payload :=
    update_contact_payload name email phone mobilePhone twitterId description in
  response <- client_put client ("/contacts/" ++ Num.toString contactId) payload ;;
  ret (success (confirmed ("Contact " ++ Num.toString contactId ++ " updated successfully")
                          (ax_data response))).

Definition update_contact (apiKey subdomain : str) (contactId : Z)
    (name email phone mobilePhone twitterId description : option str) : M Envelope :=
  try_catch (update_contact_try apiKey subdomain contactId name email phone mobilePhone
               twitterId description) on_error.

(** *** freshchat-list-conversations; [page] defaults to 1,
    [itemsPerPage] to 20. *)

Inductive ConversationStatus := StatusNew | StatusAssigned | StatusResolved | StatusClosed.

Definition status_name (x : ConversationStatus) : str :=
  match x with
  | StatusNew => "new"
  | StatusAssigned => "assigned"
  | StatusResolved => "resolved"
  | StatusClosed => "closed"
  end.

Definition list_conversations_params (assigneeId : option str)
    (status : option ConversationStatus) (page itemsPerPage : Z) : list (str * value) :=
  defined ([("page" : str, Some (JNum page));
            ("items_per_page" : str, Some (JNum itemsPerPage))]
             ++ when_present "assignee_id" assigneeId
             ++ when_present "status" (option_map status_name status)).

Definition list_conversations_try (apiKey domain : str) (assigneeId : option str)
    (status : option ConversationStatus) (page itemsPerPage : Z) : M Envelope :=
  let client := createApiClient apiKey (freshchat domain) in
  response <- client_get client "/conversations"
                (list_conversations_params assigneeId status page itemsPerPage) ;;
  ret (success (stringify2 (ax_data response))).

Definition list_conversations (apiKey domain : str) (assigneeId : option str)
    (status : option ConversationStatus) (page itemsPerPage : Z) : M Envelope :=
  try_catch (list_conversations_try apiKey domain assigneeId status page itemsPerPage)
            on_error.

(** *** freshchat-get-conversation *)

Definition get_conversation_try (apiKey domain conversationId : str) : M Envelope :=
  let client := createApiClient apiKey (freshchat domain) in
  response <- client_get client ("/conversations/" ++ conversationId) [] ;;
  ret (success (stringify2 (ax_data response))).

Definition get_conversation (apiKey domain conversationId : str) : M Envelope :=
  try_catch (get_conversation_try apiKey domain conversationId) on_error.

(** *** freshchat-send-message; [actorType] defaults to agent,
    [messageType] to normal. *)

Inductive ActorType := Agent | System.
Inductive MessageType := Normal | Private.

Definition actor_name (a : ActorType) : str :=
  match a with Agent => "agent" | System => "system" end.

Definition message_type_name (m : MessageType) : str :=
  match m with Normal => "normal" | Private => "private" end.

Definition send_message_payload (actorType : ActorType) (actorId message : str)
    (messageType : MessageType) : value :=
  object [("actor_type" : str, Some (JStr (actor_name actorType)));
          ("actor_id" : str, Some (JStr actorId));
          ("message_type" : str, Some (JStr (message_type_name messageType)));
          ("message" : str,
           Some (object [("type" : str, Some (JStr "text"));
                         ("text" : str, Some (JStr message))]))].

Definition send_message_try (apiKey domain conversationId : str) (actorType : ActorType)
    (actorId message : str) (messageType : MessageType) : M Envelope :=
  let client := createApiClient apiKey (freshchat domain) in
  let payload := send_message_payload actorType actorId message messageType in
  response <- client_post client ("/conversations/" ++ conversationId ++ "/messages")
                payload ;;
  ret (success (confirmed ("Message sent successfully to conversation " ++ conversationId)
                          (ax_data response))).

Definition send_message (apiKey domain conversationId : str) (actorType : ActorType)
    (actorId message : str) (messageType : MessageType) : M Envelope :=
  try_catch (send_message_try apiKey domain conversationId actorType actorId message
               messageType) on_error.

Inductive Tool :=
| ListTickets (apiKey subdomain : str) (page perPage : Z) (filter : option str)
| GetTicket (apiKey subdomain : str) (ticketId : Z)
| CreateTicket (apiKey subdomain subject description email : str) (priority status : Z)
    (tags : option (list str))
| UpdateTicket (apiKey subdomain : str) (ticketId : Z) (subject description : option str)
    (priority status : option Z) (tags : option (list str))
| AddNote (apiKey subdomain : str) (ticketId : Z) (body : str) (isPrivate : bool)
| ListContacts (apiKey subdomain : str) (page perPage : Z)
| GetContact (apiKey subdomain : str) (contactId : Z)
| CreateContact (apiKey subdomain name email : str)
    (phone mobilePhone twitterId companyName description : option str)
| UpdateContact (apiKey subdomain : str) (contactId : Z)
    (name email phone mobilePhone twitterId description : option str)
| ListConversations (apiKey domain : str) (assigneeId : option str)
    (status : option ConversationStatus) (page itemsPerPage : Z)
| GetConversation (apiKey domain conversationId : str)
| SendMessage (apiKey domain conversationId : str) (actorType : ActorType)
    (actorId message : str) (messageType : MessageType).

Definition attempt (t : Tool) : M Envelope :=
  match t with
  | ListTickets k s p n f => list_tickets_try k s p n f
  | GetTicket k s i => get_ticket_try k s i
  | CreateTicket k s a b c p st ts => create_ticket_try k s a b c p st ts
  | UpdateTicket k s i a b p st ts => update_ticket_try k s i a b p st ts
  | AddNote k s i b p => add_note_try k s i b p
  | ListContacts k s p n => list_contacts_try k s p n
  | GetContact k s i => get_contact_try k s i
  | CreateContact k s n e a b c d f => create_contact_try k s n e a b c d f
  | UpdateContact k s i n e a b c d => update_contact_try k s i n e a b c d
  | ListConversations k d a st p n => list_conversations_try k d a st p n
  | GetConversation k d c => get_conversation_try k d c
  | SendMessage k d c a i m mt => send_message_try k d c a i m mt
  end.

Definition handler (t : Tool) : M Envelope :=
  match t with
  | ListTickets k s p n f => list_tickets k s p n f
  | GetTicket k s i => get_ticket k s i
  | CreateTicket k s a b c p st ts => create_ticket k s a b c p st ts
  | UpdateTicket k s i a b p st ts => update_ticket k s i a b p st ts
  | AddNote k s i b p => add_note k s i b p
  | ListContacts k s p n => list_contacts k s p n
  | GetContact k s i => get_contact k s i
  | CreateContact k s n e a b c d f => create_contact k s n e a b c d f
  | UpdateContact k s i n e a b c d => update_contact k s i n e a b c d
  | ListConversations k d a st p n => list_conversations k d a st p n
  | GetConversation k d c => get_conversation k d c
  | SendMessage k d c a i m mt => send_message k d c a i m mt
  end.

(** The tools that answer with the response data alone. *)
Definition reads (t : Tool) : bool :=
  match t with
  | ListTickets _ _ _ _ _ | GetTicket _ _ _ | ListContacts _ _ _ _ | GetContact _ _ _
  | ListConversations _ _ _ _ _ _ | GetConversation _ _ _ => true
  | _ => false
  end.

(** The confirmation line of a tool that creates or changes something,
    for the response data [d]. *)
Definition confirmation (t : Tool) (d : value) : option str :=
  match t with
  | CreateTicket _ _ _ _ _ _ _ _ =>
      Some ("Ticket created successfully with ID: " ++ display (member "id" d))
  | UpdateTicket _ _ ticketId _ _ _ _ _ =>
      Some ("Ticket " ++ Num.toString ticketId ++ " updated successfully")
  | AddNote _ _ ticketId _ _ =>
      Some ("Note added successfully to ticket " ++ Num.toString ticketId)
  | CreateContact _ _ _ _ _ _ _ _ _ =>
      Some ("Contact created successfully with ID: " ++ display (member "id" d))
  | UpdateContact _ _ contactId _ _ _ _ _ _ =>
      Some ("Contact " ++ Num.toString contactId ++ " updated successfully")
  | SendMessage _ _ conversationId _ _ _ _ =>
      Some ("Message sent successfully to conversation " ++ conversationId)
  | _ => None
  end.

End Freshworks.

(** ** All tools *)

Inductive ToolCall :=
| GoHighLevelTool (t : GoHighLevel.Tool)
| HubSpotTool (t : HubSpot.Tool)
| KeapTool (t : Keap.Tool)
| PipedriveTool (t : Pipedrive.Tool)
| FreshworksTool (t : Freshworks.Tool).

(** The [try] block of a tool's handler. *)
Definition attempt (t : ToolCall) : M Envelope :=
  match t with
  | GoHighLevelTool x => GoHighLevel.attempt x
  | HubSpotTool x => HubSpot.attempt x
  | KeapTool x => Keap.attempt x
  | PipedriveTool x => Pipedrive.attempt x
  | FreshworksTool x => Freshworks.attempt x
  end.

(** The handler the server registers for the tool. *)
Definition handler (t : ToolCall) : M Envelope :=
  match t with
  | GoHighLevelTool x => GoHighLevel.handler x
  | HubSpotTool x => HubSpot.handler x
  | KeapTool x => Keap.handler x
  | PipedriveTool x => Pipedrive.handler x
  | FreshworksTool x => Freshworks.handler x
  end.

(** One invocation from the host: the handler runs on an empty log. *)
Definition invoke (t : ToolCall) (w : World) : Result Envelope * list Call :=
  handler t w [].

(** ** Requests as they are sent *)












(** ** What the log of an invocation says *)




(** ** Test doubles *)

(** A vendor that cannot be reached. *)
Definition offline : World :=
  {| fetch_backend := fun _ => Rejected (new_Error "connect ECONNREFUSED");
     axios_backend := fun _ => Rejected (new_Error "connect ECONNREFUSED");
     pipedrive_backend := fun _ => Rejected (new_Error "connect ECONNREFUSED");
     json_failure := fun _ => "Unexpected token" |}.

(** A vendor that answers every request with the same response. *)
Definition fake (r : Response) : World :=
  {| fetch_backend := fun _ => Resolved r;
     axios_backend := fun _ => Resolved r;
     pipedrive_backend := fun _ =>
       if ok r then Resolved (axios_data (body r))
       else Rejected (new_Error (statusText r));
     json_failure := fun _ => "Unexpected token in JSON" |}.




(** A 200 response with the body [{"id": 42}]. *)
Definition ok_id_42 : Response :=
  {| status := 200; statusText := "OK";
     body := "{" ++ dquote :: "id" ++ dquote :: ": 42}" |}.

(** The text of [{"id": 42}] with an indentation of two spaces. *)
Definition golden : str :=
  "{" ++ newline :: "  " ++ dquote :: "id" ++ dquote :: ": 42" ++ newline :: "}".

Definition id_42 : value := JObj [("id" : str, JNum 42)].


(** A backend that echoes the posted object with an added [id]. *)
Definition echo_with_id (id : str) (sent : option str) : Response :=
  match sent with
  | Some text =>
      match parse text with
      | Some (JObj m) =>
          {| status := 200; statusText := "OK";
             body := stringify (JObj (obj_set "id" (JStr id) m)) |}
      | _ => {| status := 400; statusText := "Bad Request"; body := "{}" |}
      end
  | None => {| status := 400; statusText := "Bad Request"; body := "{}" |}
  end.

Definition echo (id : str) : World :=
  {| fetch_backend := fun q => Resolved (echo_with_id id (request_body q));
     axios_backend := fun q => Resolved (echo_with_id id (option_map stringify (data q)));
     pipedrive_backend := fun _ => Rejected (new_Error "not a Pipedrive backend");
     json_failure := fun _ => "Unexpected token in JSON" |}.

(** [{email: "a@b.com"}]. *)
Definition only_email : GoHighLevel.ContactData :=
  {| GoHighLevel.cd_email := Some ("a@b.com" : str); GoHighLevel.cd_phone := None;
     GoHighLevel.cd_firstName := None; GoHighLevel.cd_lastName := None;
     GoHighLevel.cd_name := None; GoHighLevel.cd_companyName := None;
     GoHighLevel.cd_address1 := None; GoHighLevel.cd_city := None;
     GoHighLevel.cd_state := None; GoHighLevel.cd_country := None;
     GoHighLevel.cd_postalCode := None; GoHighLevel.cd_source := None;
     GoHighLevel.cd_tags := None; GoHighLevel.cd_customField := None |}.

(** The echo of [{email: "a@b.com"}] with the added [id]. *)
Definition echoed : value :=
  JObj [("email" : str, JStr "a@b.com"); ("id" : str, JStr "c1")].

(** ** Kinds of tools and of texts *)

(** The tools of the Freshworks server that read the [id] of the data. *)
Definition reads_id (t : Freshworks.Tool) : bool :=
  match t with
  | Freshworks.CreateTicket _ _ _ _ _ _ _ _
  | Freshworks.CreateContact _ _ _ _ _ _ _ _ _ => true
  | _ => false
  end.

(** The text of a successful Freshworks envelope for the data [d]. *)
Definition freshworks_text (t : Freshworks.Tool) (d : value) : str :=
  match Freshworks.confirmation t d with
  | Some line => Freshworks.confirmed line d
  | None => stringify2 d
  end.


(** The start of every error text. *)
Definition error_start (s : str) : bool :=
  Str.prefix "Error" s || Str.prefix "API Error (" s.

(** ** Credentials *)






(** ** Request bodies *)

(** The object a tool sends as the body of its request, for the tools
    that send one. *)
Definition payload (t : ToolCall) : option value :=
  match t with
  | GoHighLevelTool (GoHighLevel.CreateContact _ contactData)
  | GoHighLevelTool (GoHighLevel.UpdateContact _ _ contactData) =>
      Some (GoHighLevel.contactData_object contactData)
  | GoHighLevelTool (GoHighLevel.AddContactTags _ _ tags)
  | GoHighLevelTool (GoHighLevel.RemoveContactTags _ _ tags) =>
      Some (GoHighLevel.tags_object tags)
  | GoHighLevelTool (GoHighLevel.CreateTask _ taskData) =>
      Some (GoHighLevel.taskData_object taskData)
  | GoHighLevelTool (GoHighLevel.UpdateTask _ _ taskData) =>
      Some (GoHighLevel.taskUpdate_object taskData)
  | GoHighLevelTool (GoHighLevel.CreateOpportunity _ opportunityData) =>
      Some (GoHighLevel.opportunityData_object opportunityData)
  | GoHighLevelTool (GoHighLevel.CreateCalendarEvent _ eventData) =>
      Some (GoHighLevel.eventData_object eventData)
  | HubSpotTool (HubSpot.CreateContact _ properties)
  | HubSpotTool (HubSpot.UpdateContact _ _ properties) =>
      Some (HubSpot.properties_object properties)
  | HubSpotTool (HubSpot.SearchContacts _ query limit properties) =>
      Some (HubSpot.search_body query limit properties)
  | KeapTool (Keap.CreateContact _ contact)
  | KeapTool (Keap.UpdateContact _ _ contact) => Some (Keap.contact_object contact)
  | FreshworksTool (Freshworks.CreateTicket _ _ subject description email priority status
                      tags) =>
      Some (Freshworks.create_ticket_payload subject description email priority status tags)
  | FreshworksTool (Freshworks.UpdateTicket _ _ _ subject description priority status tags) =>
      Some (Freshworks.update_ticket_payload subject description priority status tags)
  | FreshworksTool (Freshworks.AddNote _ _ _ body isPrivate) =>
      Some (object [("body" : str, Some (JStr body));
                    ("private" : str, Some (JBool isPrivate))])
  | FreshworksTool (Freshworks.CreateContact _ _ name email phone mobilePhone twitterId
                      companyName description) =>
      Some (Freshworks.create_contact_payload name email phone mobilePhone twitterId
              companyName description)
  | FreshworksTool (Freshworks.UpdateContact _ _ _ name email phone mobilePhone twitterId
                      description) =>
      Some (Freshworks.update_contact_payload name email phone mobilePhone twitterId
              description)
  | FreshworksTool (Freshworks.SendMessage _ _ _ actorType actorId message messageType) =>
      Some (Freshworks.send_message_payload actorType actorId message messageType)
  | _ => None
  end.





(** The one member a handler sets to [null] on purpose: [company_id] of
    freshdesk-create-contact when a company name is given. *)
Definition explicit_null (t : ToolCall) (k : str) : bool :=
  match t with
  | FreshworksTool (Freshworks.CreateContact _ _ _ _ _ _ _ companyName _) =>
      present companyName && Str.eqb k "company_id"
  | _ => false
  end.

(** A string as a handler's truthiness test lets it through. *)
Definition if_present (x : option str) : option value :=
  if present x then jstr x else None.

(** ** More test doubles *)



(** A 200 response with the body [null]. *)
Definition ok_null : Response :=
  {| status := 200; statusText := "OK"; body := "null" |}.


(** * Properties *)

(** ** JSON *)

Module JsonFacts.

(** Induction with hypotheses for the elements of arrays and objects. *)
Lemma value_induction (P : value -> Prop) :
  P JNull ->
  (forall b, P (JBool b)) ->
  (forall n, P (JNum n)) ->
  (forall s, P (JStr s)) ->
  (forall l, Forall P l -> P (JArr l)) ->
  (forall m, Forall (fun kv => P (snd kv)) m -> P (JObj m)) ->
  forall v, P v.
Proof.
  intros Hnull Hbool Hnum Hstr Harr Hobj.
  fix IH 1.
  intros [ | b | n | s | l | m ].
  - exact Hnull.
  - apply Hbool.
  - apply Hnum.
  - apply Hstr.
  - apply Harr. induction l as [ | x l IHl ]; constructor; [ apply IH | exact IHl ].
  - apply Hobj. induction m as [ | [k x] m IHm ]; constructor; [ apply IH | exact IHm ].
Qed.

(** *** Strings and numbers are read back *)

Lemma str_eqb_refl (a : str) : Str.eqb a a = true.
Proof. induction a as [ | c a IH ]; simpl; [ | rewrite Ascii.eqb_refl ]; auto. Qed.

Lemma str_eqb_eq (a b : str) : Str.eqb a b = true <-> a = b.
Proof.
  split.
  - revert b. induction a as [ | c a IH ]; intros [ | d b ]; simpl; try discriminate; auto.
    intros H. apply andb_true_iff in H as [H1 H2].
    apply Ascii.eqb_eq in H1. f_equal; auto.
  - intros ->. apply str_eqb_refl.
Qed.

Lemma skip_ws_app (w s : str) :
  forallb is_ws w = true -> skip_ws (w ++ s) = skip_ws s.
Proof.
  induction w as [ | c w IH ]; simpl; auto.
  intros H. apply andb_true_iff in H as [H1 H2]. rewrite H1. auto.
Qed.

Lemma skip_ws_head (c : ascii) (s : str) :
  is_ws c = false -> skip_ws (c :: s) = c :: s.
Proof. intros H. simpl. rewrite H. reflexivity. Qed.

Lemma read_string_quote_char (c : ascii) (t : str) :
  read_string (quote_char c ++ t) = prepend [c] (read_string t).
Proof.
  destruct c as [[] [] [] [] [] [] [] []]; reflexivity.
Qed.

Lemma read_string_quoted (s rest : str) :
  read_string (flat_map quote_char s ++ dquote :: rest) = Some (s, rest).
Proof.
  induction s as [ | c s IH ]; simpl.
  - reflexivity.
  - rewrite <- app_assoc, read_string_quote_char, IH. reflexivity.
Qed.

Lemma read_digits_uint_chars (u : Decimal.uint) (r : str) :
  not_digit_head r -> Num.read_digits (Num.uint_chars u ++ r) = (u, r).
Proof.
  intros Hr. induction u; simpl; try (rewrite IHu; reflexivity).
  destruct r as [ | c r ]; simpl in *; [ reflexivity | rewrite Hr; reflexivity ].
Qed.

Lemma is_digit_digit_cons (c : ascii) :
  Num.is_digit c = false -> Num.digit_cons c = None.
Proof. destruct c as [[] [] [] [] [] [] [] []]; simpl; intros H; try discriminate H; reflexivity. Qed.

Lemma delimited_not_digit (r : str) : delimited r = true -> not_digit_head r.
Proof.
  destruct r as [ | c r ]; simpl; auto.
  intros H. apply andb_true_iff in H as [H _].
  apply is_digit_digit_cons. now destruct (Num.is_digit c).
Qed.

Lemma delimited_continues (r : str) : delimited r = true -> continues_number r = false.
Proof.
  destruct r as [ | c r ]; auto. unfold delimited.
  intros H. apply andb_true_iff in H as [_ H]. now destruct (continues_number (c :: r)).
Qed.

Lemma nzhead_no_leading_zero (u : Decimal.uint) :
  match nzhead u with D0 _ => False | _ => True end.
Proof. induction u; simpl; auto. Qed.

Lemma no_leading_zero_unorm (u : Decimal.uint) : no_leading_zero (unorm u) = true.
Proof.
  unfold unorm. pose proof (nzhead_no_leading_zero u) as H.
  destruct (nzhead u); simpl; auto; contradiction.
Qed.

Lemma no_leading_zero_to_uint (n : N) : no_leading_zero (N.to_uint n) = true.
Proof.
  rewrite <- (Unsigned.of_to n) at 1. rewrite Unsigned.to_of.
  apply no_leading_zero_unorm.
Qed.

Lemma uint_chars_head (u : Decimal.uint) :
  no_leading_zero u = true ->
  exists c t, Num.uint_chars u = c :: t /\ Num.is_digit c = true.
Proof.
  destruct u; simpl; try discriminate; intros _; eexists; eexists; split; reflexivity.
Qed.

Lemma read_number_digits (u : Decimal.uint) (r : str) :
  no_leading_zero u = true -> delimited r = true ->
  read_number (Num.uint_chars u ++ r) = Some (Z.of_N (N.of_uint u), r).
Proof.
  intros Hu Hr. unfold read_number.
  destruct (uint_chars_head u Hu) as (c & t & E & Hc).
  assert (Hm : Ascii.eqb c "-" = false).
  { destruct c as [[] [] [] [] [] [] [] []]; try discriminate Hc; reflexivity. }
  rewrite E. simpl app. cbv beta iota. rewrite Hm.
  change (c :: t ++ r) with ((c :: t) ++ r). rewrite <- E.
  rewrite read_digits_uint_chars by now apply delimited_not_digit.
  rewrite Hu, (delimited_continues r Hr). reflexivity.
Qed.

Lemma read_number_toString (n : Z) (r : str) :
  delimited r = true -> read_number (Num.toString n ++ r) = Some (n, r).
Proof.
  intros Hr. destruct n as [ | p | p ].
  - apply (read_number_digits (D0 Nil) r eq_refl Hr).
  - unfold Num.toString.
    rewrite read_number_digits; auto using no_leading_zero_to_uint.
    rewrite Unsigned.of_to. reflexivity.
  - unfold Num.toString, read_number. rewrite <- app_comm_cons.
    cbv beta iota. rewrite Ascii.eqb_refl.
    rewrite read_digits_uint_chars by now apply delimited_not_digit.
    rewrite no_leading_zero_to_uint, (delimited_continues r Hr), Unsigned.of_to.
    reflexivity.
Qed.

Lemma toString_head (n : Z) :
  exists c t, Num.toString n = c :: t /\ (Num.is_digit c || Ascii.eqb c "-") = true.
Proof.
  destruct n as [ | p | p ].
  - eexists; eexists; split; reflexivity.
  - destruct (uint_chars_head _ (no_leading_zero_to_uint (Npos p))) as (c & t & E & Hc).
    exists c, t. unfold Num.toString. rewrite E, Hc. auto.
  - eexists; eexists; split; reflexivity.
Qed.

Lemma parse_value_number_head (f : nat) (c : ascii) (r : str) :
  (Num.is_digit c || Ascii.eqb c "-") = true ->
  parse_value (S f) (c :: r) =
  match read_number (c :: r) with
  | Some (n, r') => Some (JNum n, r')
  | None => None
  end.
Proof.
  destruct c as [[] [] [] [] [] [] [] []]; intros H; try discriminate H; reflexivity.
Qed.

Lemma parse_value_toString (f : nat) (n : Z) (r : str) :
  delimited r = true ->
  parse_value (S f) (Num.toString n ++ r) = Some (JNum n, r).
Proof.
  intros Hr. destruct (toString_head n) as (c & t & E & Hc).
  pose proof (read_number_toString n r Hr) as Hn.
  rewrite E in *. simpl app in *.
  rewrite parse_value_number_head, Hn by exact Hc. reflexivity.
Qed.

Lemma parse_value_skip (f : nat) (w s : str) :
  forallb is_ws w = true -> parse_value f (w ++ s) = parse_value f s.
Proof.
  intros Hw. destruct f as [ | f ]; [ reflexivity | ].
  simpl. rewrite (skip_ws_app w s Hw). reflexivity.
Qed.

Lemma parse_elements_eq (f : nat) (acc : list value) (s : str) :
  parse_elements (S f) acc s =
  match parse_value f s with
  | None => None
  | Some (v, r) =>
      match skip_ws r with
      | [] => None
      | c :: r' =>
          if Ascii.eqb c "," then parse_elements f (v :: acc) r'
          else if Ascii.eqb c "]" then Some (JArr (List.rev (v :: acc)), r')
          else None
      end
  end.
Proof. reflexivity. Qed.

Lemma parse_members_eq (f : nat) (acc : list (str * value)) (s : str) :
  parse_members (S f) acc s =
  match skip_ws s with
  | [] => None
  | c :: r =>
      if Ascii.eqb c dquote then
        match read_string r with
        | None => None
        | Some (k, r1) =>
            match skip_ws r1 with
            | [] => None
            | c1 :: r2 =>
                if Ascii.eqb c1 ":" then
                  match parse_value f r2 with
                  | None => None
                  | Some (v, r3) =>
                      match skip_ws r3 with
                      | [] => None
                      | c3 :: r4 =>
                          if Ascii.eqb c3 "," then
                            parse_members f (obj_set k v acc) r4
                          else if Ascii.eqb c3 "}" then
                            Some (JObj (obj_set k v acc), r4)
                          else None
                      end
                  end
                else None
            end
        end
      else None
  end.
Proof. reflexivity. Qed.

Lemma wrap_nonempty (o c : ascii) (gap stepback indent : str) (p : str) (ps : list str) :
  wrap o c gap stepback indent (p :: ps)
  = o :: line_break gap indent
      ++ join ("," ++ line_break gap indent) (p :: ps)
      ++ line_break gap stepback ++ [c].
Proof.
  unfold wrap, line_break. destruct (is_empty gap); reflexivity.
Qed.

Lemma line_break_ws (gap indent : str) :
  forallb is_ws indent = true -> forallb is_ws (line_break gap indent) = true.
Proof.
  intros H. unfold line_break. destruct (is_empty gap); simpl; auto.
Qed.

Lemma skip_ws_line_break (gap indent : str) (c : ascii) (r : str) :
  forallb is_ws indent = true -> is_ws c = false ->
  skip_ws (line_break gap indent ++ c :: r) = c :: r.
Proof.
  intros Hi Hc. rewrite skip_ws_app by now apply line_break_ws.
  now apply skip_ws_head.
Qed.

Lemma delimited_line_break (gap indent : str) (c : ascii) (r : str) :
  delimited (c :: r) = true -> delimited (line_break gap indent ++ c :: r) = true.
Proof.
  unfold line_break. destruct (is_empty gap); auto.
Qed.

Lemma serialize_head (gap indent : str) (v : value) :
  exists c t, serialize gap indent v = c :: t
    /\ is_ws c = false /\ Ascii.eqb c "]" = false /\ Ascii.eqb c "}" = false.
Proof.
  destruct v as [ | [] | n | s | l | m ]; simpl;
    try (eexists; eexists; split; [ reflexivity | repeat split ]; fail).
  - destruct (toString_head n) as (c & t & E & Hc). exists c, t. split; [ exact E | ].
    clear E. destruct c as [[] [] [] [] [] [] [] []]; try discriminate Hc; repeat split.
  - destruct (map _ l); [ | rewrite wrap_nonempty ];
      (eexists; eexists; split; [ reflexivity | repeat split ]).
  - destruct (map _ m); [ | rewrite wrap_nonempty ];
      (eexists; eexists; split; [ reflexivity | repeat split ]).
Qed.

Lemma forallb_ws_app (a b : str) :
  forallb is_ws a = true -> forallb is_ws b = true -> forallb is_ws (a ++ b) = true.
Proof. intros Ha Hb. rewrite forallb_app, Ha, Hb. reflexivity. Qed.

(** *** Keys in enumeration order *)

Lemma ordered_keys_app (a : list str) (k : str) (b : list str) :
  ordered_keys (a ++ k :: b) = true ->
  forallb (fun k1 => key_before k1 k) a = true.
Proof.
  induction a as [ | x a IH ]; simpl; auto.
  intros H. apply andb_true_iff in H as [H1 H2].
  rewrite forallb_app in H1. apply andb_true_iff in H1 as [_ H1].
  simpl in H1. apply andb_true_iff in H1 as [H1 _].
  rewrite H1. auto.
Qed.

Lemma key_before_irrefl (k : str) : key_before k k = false.
Proof.
  unfold key_before. destruct (array_index k).
  - apply N.ltb_irrefl.
  - rewrite str_eqb_refl. reflexivity.
Qed.

Lemma lookup_none_before (k : str) (m : list (str * value)) :
  forallb (fun k1 => key_before k1 k) (map fst m) = true -> lookup k m = None.
Proof.
  induction m as [ | [k1 v1] m IH ]; simpl; auto.
  intros H. apply andb_true_iff in H as [H1 H2].
  destruct (Str.eqb k k1) eqn:E.
  - apply str_eqb_eq in E. subst k1. rewrite key_before_irrefl in H1. discriminate.
  - auto.
Qed.

Lemma insert_index_last (n : N) (k : str) (v : value) (m : list (str * value)) :
  array_index k = Some n ->
  forallb (fun k1 => key_before k1 k) (map fst m) = true ->
  insert_index n k v m = m ++ [(k, v)].
Proof.
  intros Hk. induction m as [ | [k1 v1] m IH ]; simpl; auto.
  intros H. apply andb_true_iff in H as [H1 H2].
  unfold key_before in H1. rewrite Hk in H1.
  destruct (array_index k1) as [ n1 | ]; [ | discriminate ].
  rewrite H1, IH by exact H2. reflexivity.
Qed.

Lemma obj_set_last (k : str) (v : value) (m1 m2 : list (str * value)) :
  ordered_keys (map fst (m1 ++ (k, v) :: m2)) = true ->
  obj_set k v m1 = m1 ++ [(k, v)].
Proof.
  intros H. rewrite map_app in H. simpl in H. apply ordered_keys_app in H.
  unfold obj_set. rewrite (lookup_none_before k m1 H).
  destruct (array_index k) as [ n | ] eqn:E; [ | reflexivity ].
  now apply insert_index_last.
Qed.

Lemma parse_value_array (f : nat) (w s : str) (gap indent : str) (x : value) (R : str) :
  forallb is_ws w = true -> s = serialize gap indent x ++ R ->
  parse_value (S f) ("["%char :: w ++ s) = parse_elements f [] (w ++ s).
Proof.
  intros Hw ->. destruct (serialize_head gap indent x) as (c & t & E & Hws & Hc & _).
  simpl. rewrite (skip_ws_app w _ Hw), E. simpl. rewrite Hws, Hc. reflexivity.
Qed.

Lemma parse_value_object (f : nat) (w s t : str) :
  forallb is_ws w = true -> s = dquote :: t ->
  parse_value (S f) ("{"%char :: w ++ s) = parse_members f [] (w ++ s).
Proof.
  intros Hw ->. simpl. rewrite (skip_ws_app w _ Hw). reflexivity.
Qed.

Lemma join_cons_app (sep a : str) (l : list str) (Z : str) :
  join sep (a :: l) ++ Z
  = a ++ match l with [] => Z | _ :: _ => sep ++ join sep l ++ Z end.
Proof. destruct l; simpl; rewrite <- ?app_assoc; reflexivity. Qed.

Lemma parse_elements_join (gap indent stepback : str) (l : list value) :
  forallb is_ws gap = true -> forallb is_ws indent = true ->
  forallb is_ws stepback = true ->
  Forall parses_back l ->
  forall x acc f rest,
    parses_back x ->
    list_sum (map (fun y => S (size y)) (x :: l)) < f ->
    parse_elements f acc
      (line_break gap indent
         ++ join ("," ++ line_break gap indent) (map (serialize gap indent) (x :: l))
         ++ line_break gap stepback ++ "]"%char :: rest)
    = Some (JArr (List.rev acc ++ x :: l), rest).
Proof.
  intros Hgap Hind Hstep Hl.
  induction Hl as [ | y l Hy Hl IH ]; intros x acc f rest Hx Hf;
    (destruct f as [ | f ]; [ inversion Hf | ]);
    rewrite parse_elements_eq, parse_value_skip by now apply line_break_ws.
  - simpl map. simpl join.
    rewrite (Hx gap indent f _ Hgap Hind).
    + rewrite skip_ws_line_break by auto. reflexivity.
    + simpl in Hf. lia.
    + now apply delimited_line_break.
  - change (map (serialize gap indent) (x :: y :: l))
      with (serialize gap indent x :: map (serialize gap indent) (y :: l)).
    change (join ?s (?a :: map ?g (y :: l)))
      with (a ++ s ++ join s (map g (y :: l))).
    rewrite <- !app_assoc.
    rewrite (Hx gap indent f _ Hgap Hind).
    + cbn -[parse_elements serialize join line_break map]. rewrite IH.
      * simpl. rewrite <- app_assoc. reflexivity.
      * exact Hy.
      * simpl in Hf |- *. lia.
    + simpl in Hf. lia.
    + reflexivity.
Qed.

Lemma parse_members_member (gap indent w : str) (f : nat) (acc : list (str * value))
    (k : str) (v : value) (R : str) :
  forallb is_ws w = true -> forallb is_ws gap = true -> forallb is_ws indent = true ->
  parses_back v -> size v < f -> delimited R = true ->
  parse_members (S f) acc (w ++ quote k ++ colon gap ++ serialize gap indent v ++ R)
  = match skip_ws R with
    | [] => None
    | c3 :: r4 =>
        if Ascii.eqb c3 "," then parse_members f (obj_set k v acc) r4
        else if Ascii.eqb c3 "}" then Some (JObj (obj_set k v acc), r4)
        else None
    end.
Proof.
  intros Hw Hgap Hind Hv Hf HR.
  rewrite parse_members_eq, skip_ws_app by exact Hw.
  unfold quote. rewrite <- app_comm_cons, <- app_assoc.
  rewrite skip_ws_head by reflexivity.
  rewrite Ascii.eqb_refl. simpl app at 2.
  rewrite read_string_quoted.
  assert (Hc : exists sp, colon gap = ":"%char :: sp /\ forallb is_ws sp = true).
  { unfold colon. destruct (is_empty gap); eexists; split; reflexivity. }
  destruct Hc as (sp & -> & Hsp).
  rewrite <- app_comm_cons, skip_ws_head by reflexivity.
  rewrite Ascii.eqb_refl.
  rewrite parse_value_skip by exact Hsp.
  rewrite (Hv gap indent f R Hgap Hind Hf HR).
  reflexivity.
Qed.

Lemma parse_members_join (gap indent stepback : str) (m2 : list (str * value)) :
  forallb is_ws gap = true -> forallb is_ws indent = true ->
  forallb is_ws stepback = true ->
  Forall (fun kv => parses_back (snd kv)) m2 ->
  forall kv m1 f rest,
    parses_back (snd kv) ->
    ordered_keys (map fst (m1 ++ kv :: m2)) = true ->
    list_sum (map (fun y => S (size (snd y))) (kv :: m2)) < f ->
    parse_members f m1
      (line_break gap indent
         ++ join ("," ++ line_break gap indent)
              (map (fun kv => quote (fst kv) ++ colon gap
                                ++ serialize gap indent (snd kv)) (kv :: m2))
         ++ line_break gap stepback ++ "}"%char :: rest)
    = Some (JObj (m1 ++ kv :: m2), rest).
Proof.
  intros Hgap Hind Hstep Hm.
  induction Hm as [ | y m2 Hy Hm IH ]; intros [k v] m1 f rest Hx Hord Hf;
    (destruct f as [ | f ]; [ inversion Hf | ]).
  - set (mem := fun kv : str * value => quote (fst kv) ++ colon gap
                                ++ serialize gap indent (snd kv)).
    change (map mem [(k, v)]) with [mem (k, v)].
    change (join ?s [?a]) with a.
    unfold mem. cbn [fst snd]. rewrite <- !app_assoc.
    rewrite parse_members_member; auto using line_break_ws, delimited_line_break.
    + rewrite skip_ws_line_break by auto.
      cbn -[obj_set]. rewrite (obj_set_last k v m1 []) by exact Hord. reflexivity.
    + simpl in Hf. lia.
  - set (mem := fun kv : str * value => quote (fst kv) ++ colon gap
                                ++ serialize gap indent (snd kv)).
    change (map mem ((k, v) :: y :: m2)) with (mem (k, v) :: map mem (y :: m2)).
    change (join ?s (?a :: map ?g (y :: m2)))
      with (a ++ s ++ join s (map g (y :: m2))).
    unfold mem at 1. cbn [fst snd]. rewrite <- !app_assoc.
    rewrite parse_members_member; auto using line_break_ws.
    + cbn -[parse_members serialize join line_break map obj_set mem].
      rewrite (obj_set_last k v m1 (y :: m2)) by exact Hord.
      unfold mem. rewrite IH.
      * rewrite <- app_assoc. reflexivity.
      * exact Hy.
      * rewrite <- app_assoc. exact Hord.
      * simpl in Hf |- *. lia.
    + simpl in Hf. lia.
Qed.

Lemma forall_normal (l : list value) :
  forallb normal l = true ->
  Forall (fun x => normal x = true -> parses_back x) l ->
  Forall parses_back l.
Proof.
  intros Hn H. induction H as [ | x l Hx H IH ]; constructor;
    simpl in Hn; apply andb_true_iff in Hn as [H1 H2]; auto.
Qed.

Lemma forall_normal_members (m : list (str * value)) :
  forallb (fun kv => normal (snd kv)) m = true ->
  Forall (fun kv => normal (snd kv) = true -> parses_back (snd kv)) m ->
  Forall (fun kv => parses_back (snd kv)) m.
Proof.
  intros Hn H. induction H as [ | x l Hx H IH ]; constructor;
    simpl in Hn; apply andb_true_iff in Hn as [H1 H2]; auto.
Qed.

Theorem parse_serialize (v : value) : normal v = true -> parses_back v.
Proof.
  induction v as [ | b | n | s | l IH | m IH ] using value_induction;
    intros Hn gap indent f rest Hgap Hind Hf Hrest;
    (destruct f as [ | f ]; [ inversion Hf | ]).
  - reflexivity.
  - destruct b; reflexivity.
  - now apply parse_value_toString.
  - simpl serialize. unfold quote. rewrite <- app_comm_cons, <- app_assoc.
    simpl. rewrite read_string_quoted. reflexivity.
  - simpl in Hn. pose proof (forall_normal l Hn IH) as Hl.
    simpl serialize. destruct l as [ | x l ]; [ reflexivity | ].
    simpl map. rewrite wrap_nonempty.
    inversion Hl as [ | ? ? Hx Hl' ]; subst.
    rewrite <- app_comm_cons, <- !app_assoc.
    erewrite parse_value_array.
    + apply (parse_elements_join gap (indent ++ gap) indent l); auto using forallb_ws_app.
      simpl in Hf. simpl. lia.
    + auto using line_break_ws, forallb_ws_app.
    + rewrite join_cons_app. reflexivity.
  - simpl in Hn. apply andb_true_iff in Hn as [Hord Hn].
    pose proof (forall_normal_members m Hn IH) as Hm.
    destruct m as [ | [k x] m ]; [ reflexivity | ].
    set (mem := fun kv : str * value =>
                  quote (fst kv) ++ colon gap ++ serialize gap (indent ++ gap) (snd kv)).
    change (serialize gap indent (JObj ((k, x) :: m)))
      with (wrap "{" "}" gap indent (indent ++ gap) (mem (k, x) :: map mem m)).
    rewrite wrap_nonempty.
    inversion Hm as [ | ? ? Hx Hm' ]; subst.
    rewrite <- app_comm_cons, <- !app_assoc.
    erewrite parse_value_object.
    + apply (parse_members_join gap (indent ++ gap) indent m); auto using forallb_ws_app.
      simpl in Hf. simpl. lia.
    + auto using line_break_ws, forallb_ws_app.
    + rewrite join_cons_app. unfold mem at 1. unfold quote. cbn [fst].
      rewrite <- !app_comm_cons. reflexivity.
Qed.

Lemma length_join (sep : str) (l : list str) :
  list_sum (map (@List.length ascii) l) <= List.length (join sep l).
Proof.
  induction l as [ | a l IH ]; simpl; auto.
  destruct l as [ | b l ]; [ simpl; lia | ].
  rewrite !length_app. simpl in IH |- *. lia.
Qed.

Lemma length_wrap (o c : ascii) (gap stepback indent : str) (ps : list str) :
  2 + list_sum (map (@List.length ascii) ps) <= List.length (wrap o c gap stepback indent ps).
Proof.
  destruct ps as [ | p ps ]; [ simpl; lia | ].
  rewrite wrap_nonempty.
  pose proof (length_join ("," ++ line_break gap indent) (p :: ps)) as H.
  change (List.length (?a :: ?b)) with (S (List.length b)).
  rewrite !length_app. change (List.length [c]) with 1. lia.
Qed.

Lemma size_lt_length (v : value) :
  forall gap indent, size v < List.length (serialize gap indent v).
Proof.
  induction v as [ | b | n | s | l IH | m IH ] using value_induction;
    intros gap indent.
  - simpl. lia.
  - destruct b; simpl; lia.
  - destruct (toString_head n) as (c & t & E & _). simpl. rewrite E. simpl. lia.
  - simpl. lia.
  - simpl serialize.
    pose proof (length_wrap "[" "]" gap indent (indent ++ gap)
                  (map (serialize gap (indent ++ gap)) l)) as H.
    assert (H0 : list_sum (map (fun x => S (size x)) l)
            <= list_sum (map (@List.length ascii) (map (serialize gap (indent ++ gap)) l))).
    { clear H. induction IH as [ | x l Hx _ IHl ]; [ reflexivity | ].
      cbn [map]. specialize (Hx gap (indent ++ gap)).
      change (list_sum (?a :: ?l)) with (a + list_sum l).
      change (list_sum (?a :: ?l)) with (a + list_sum l).
      apply Nat.add_le_mono; [ lia | exact IHl ]. }
    eapply Nat.lt_le_trans; [ | exact H ].
    cbn [size]. unfold lt. do 2 apply le_n_S. assumption.
  - simpl serialize.
    pose proof (length_wrap "{" "}" gap indent (indent ++ gap)
                  (map (fun kv => quote (fst kv) ++ colon gap
                          ++ serialize gap (indent ++ gap) (snd kv)) m)) as H.
    assert (H0 : list_sum (map (fun kv => S (size (snd kv))) m)
            <= list_sum (map (@List.length ascii)
                 (map (fun kv => quote (fst kv) ++ colon gap
                          ++ serialize gap (indent ++ gap) (snd kv)) m))).
    { clear H. induction IH as [ | x l Hx _ IHl ]; [ reflexivity | ].
      cbn [map list_sum]. specialize (Hx gap (indent ++ gap)).
      rewrite !length_app.
      change (list_sum (?a :: ?l)) with (a + list_sum l).
      apply Nat.add_le_mono; [ lia | exact IHl ]. }
    eapply Nat.lt_le_trans; [ | exact H ].
    cbn [size]. unfold lt. do 2 apply le_n_S. assumption.
Qed.

Theorem parse_serialized (gap : str) (v : value) :
  forallb is_ws gap = true -> normal v = true ->
  parse (serialize gap [] v) = Some v.
Proof.
  intros Hgap Hn. unfold parse.
  pose proof (parse_serialize v Hn gap [] (S (List.length (serialize gap [] v))) []
                Hgap eq_refl) as H.
  rewrite app_nil_r in H. rewrite H; [ reflexivity | | reflexivity ].
  pose proof (size_lt_length v gap []). lia.
Qed.


Corollary parse_stringify (v : value) : normal v = true -> parse (stringify v) = Some v.
Proof. apply parse_serialized. reflexivity. Qed.
























End JsonFacts.

(** ** Strings, encodings and query strings *)

Module StrFacts.




Lemma prefix_app_l (p a b : str) : Str.prefix p a = true -> Str.prefix p (a ++ b) = true.
Proof.
  revert a. induction p as [ | x p IH ]; intros [ | y a ] H; simpl in *; auto;
    try discriminate H.
  apply andb_true_iff in H as [H1 H2]. rewrite H1. simpl. auto.
Qed.

Lemma includes_nil (s : str) : includes [] s = true.
Proof. destruct s; reflexivity. Qed.

Lemma includes_app_l (p a b : str) : includes p a = true -> includes p (a ++ b) = true.
Proof.
  induction a as [ | x a IH ]; simpl.
  - destruct p; [ intros _; apply includes_nil | discriminate ].
  - intros H. apply orb_true_iff in H as [H | H].
    + change (x :: a ++ b) with ((x :: a) ++ b). rewrite prefix_app_l; auto.
    + rewrite IH by exact H. apply orb_true_r.
Qed.



(** A character that does not occur in the pattern cuts the search. *)






(** Character-wise encodings: each character is kept or replaced by
    characters foreign to the pattern. *)














(** Decimal numerals. *)











(** If encoding changes nothing, every character was unreserved. *)
Lemma encode_char_length (c : ascii) :
  Url.uri_unreserved c = false -> List.length (Url.encode_char c) = 3.
Proof. intros H. unfold Url.encode_char. rewrite H. reflexivity. Qed.



(** Entries of a query string. *)



Lemma query_entries_nil : Url.query_entries [] = [].
Proof. reflexivity. Qed.

Lemma query_entries_amp (rest : str) :
  Url.query_entries ("&" ++ rest) = Url.query_entries rest.
Proof. reflexivity. Qed.





(** Encodings and numerals bring no [undefined] of their own. *)










End StrFacts.
Import StrFacts.

(** ** The handlers *)

(** Unfolding the handlers down to the backends. *)
Ltac expose :=
  cbv [handler attempt invoke
       GoHighLevel.handler GoHighLevel.attempt GoHighLevel.on_error GoHighLevel.ghlRequest
       GoHighLevel.getContacts GoHighLevel.getContacts_try
       GoHighLevel.getContact GoHighLevel.getContact_try
       GoHighLevel.createContact GoHighLevel.createContact_try
       GoHighLevel.updateContact GoHighLevel.updateContact_try
       GoHighLevel.addContactTags GoHighLevel.addContactTags_try
       GoHighLevel.removeContactTags GoHighLevel.removeContactTags_try
       GoHighLevel.getTasks GoHighLevel.getTasks_try
       GoHighLevel.createTask GoHighLevel.createTask_try
       GoHighLevel.updateTask GoHighLevel.updateTask_try
       GoHighLevel.deleteTask GoHighLevel.deleteTask_try
       GoHighLevel.getOpportunities GoHighLevel.getOpportunities_try
       GoHighLevel.createOpportunity GoHighLevel.createOpportunity_try
       GoHighLevel.getPipelines GoHighLevel.getPipelines_try
       GoHighLevel.createCalendarEvent GoHighLevel.createCalendarEvent_try
       GoHighLevel.getCalendars GoHighLevel.getCalendars_try
       HubSpot.handler HubSpot.attempt
       HubSpot.list_contacts HubSpot.list_contacts_try HubSpot.list_contacts_catch
       HubSpot.get_contact HubSpot.get_contact_try HubSpot.get_contact_catch
       HubSpot.create_contact HubSpot.create_contact_try HubSpot.create_contact_catch
       HubSpot.update_contact HubSpot.update_contact_try HubSpot.update_contact_catch
       HubSpot.search_contacts HubSpot.search_contacts_try HubSpot.search_contacts_catch
       HubSpot.list_deals HubSpot.list_deals_try HubSpot.list_deals_catch
       Keap.handler Keap.attempt
       Keap.list_contacts Keap.list_contacts_try Keap.list_contacts_catch
       Keap.get_contact Keap.get_contact_try Keap.get_contact_catch
       Keap.create_contact Keap.create_contact_try Keap.create_contact_catch
       Keap.update_contact Keap.update_contact_try Keap.update_contact_catch
       Keap.search_contacts Keap.search_contacts_try Keap.search_contacts_catch
       Keap.list_opportunities Keap.list_opportunities_try Keap.list_opportunities_catch
       Pipedrive.handler Pipedrive.attempt Pipedrive.reply_data
       Pipedrive.getAllPersons Pipedrive.getAllPersons_try Pipedrive.getAllPersons_catch
       Pipedrive.getPersonByID Pipedrive.getPersonByID_try Pipedrive.getPersonByID_catch
       Pipedrive.searchPersons Pipedrive.searchPersons_try Pipedrive.searchPersons_catch
       Pipedrive.getAllOrganizations Pipedrive.getAllOrganizations_try
       Pipedrive.getAllOrganizations_catch
       Pipedrive.getOrganizationByID Pipedrive.getOrganizationByID_try
       Pipedrive.getOrganizationByID_catch
       Pipedrive.searchOrganizations Pipedrive.searchOrganizations_try
       Pipedrive.searchOrganizations_catch
       Freshworks.handler Freshworks.attempt Freshworks.on_error
       Freshworks.client_get Freshworks.client_post Freshworks.client_put
       Freshworks.list_tickets Freshworks.list_tickets_try
       Freshworks.get_ticket Freshworks.get_ticket_try
       Freshworks.create_ticket Freshworks.create_ticket_try
       Freshworks.update_ticket Freshworks.update_ticket_try
       Freshworks.add_note Freshworks.add_note_try
       Freshworks.list_contacts Freshworks.list_contacts_try
       Freshworks.get_contact Freshworks.get_contact_try
       Freshworks.create_contact Freshworks.create_contact_try
       Freshworks.update_contact Freshworks.update_contact_try
       Freshworks.list_conversations Freshworks.list_conversations_try
       Freshworks.get_conversation Freshworks.get_conversation_try
       Freshworks.send_message Freshworks.send_message_try
       bind ret throw try_catch fetch json property text_of settle
       axios_request pipedrive_call].

Ltac step :=
  match goal with
  | |- context [ match fetch_backend ?w ?r with _ => _ end ] =>
      destruct (fetch_backend w r) eqn:?
  | |- context [ match axios_backend ?w ?r with _ => _ end ] =>
      destruct (axios_backend w r) eqn:?
  | |- context [ match pipedrive_backend ?w ?r with _ => _ end ] =>
      destruct (pipedrive_backend w r) eqn:?
  | |- context [ if negb (ok ?r) then _ else _ ] => destruct (ok r) eqn:?
  | |- context [ if ok ?r then _ else _ ] => destruct (ok r) eqn:?
  | |- context [ match parse ?b with _ => _ end ] => destruct (parse b) eqn:?
  | |- context [ match ?v with JNull => _ | _ => _ end ] => destruct v eqn:?
  end; cbv beta iota zeta.

Ltac run := expose; cbv beta iota zeta; repeat step.

(** Every handler is its [try] block under a [catch] clause that returns
    an error envelope. *)
Lemma handler_try_catch (t : ToolCall) :
  exists h : Thrown -> str,
    handler t = try_catch (attempt t) (fun e => ret (failure (h e))).
Proof.
  destruct t as [ [] | [] | [] | [] | [] ]; eexists; reflexivity.
Qed.

(** C1: for every tool of every server, when the [try] block of the
    handler throws (a rejected request, a body that is not JSON, a
    property read on [null]), the handler itself returns: its result is
    an envelope with [isError: true] and one text item holding a string,
    and the log of calls is the one the [try] block left.  Nothing is
    thrown past the handler. *)
Theorem C1_faults_become_error_envelopes (t : ToolCall) (w : World) (log log' : list Call)
    (e : Thrown) :
  attempt t w log = (Throw e, log') ->
  exists env, handler t w log = (Return env, log')
              /\ isError env = Some true /\ well_formed env = true.
Proof.
  intros H. destruct (handler_try_catch t) as [h ->].
  unfold try_catch. rewrite H. eexists. split; [ reflexivity | split; reflexivity ].
Qed.

(** keap-list-contacts against a vendor that refuses the connection. *)
Lemma C1_witness :
  exists env,
    handler (KeapTool (Keap.ListContacts "key" 10 ["email" : str])) offline []
    = (Return env,
       [FetchCall {| url := Keap.list_contacts_url 10 ["email" : str]; method := "GET";
                     headers := Keap.bearer_headers "key"; request_body := None |}])
    /\ isError env = Some true /\ well_formed env = true.
Proof.
  apply (C1_faults_become_error_envelopes _ offline [] _ (new_Error "connect ECONNREFUSED")).
  reflexivity.
Defined.


Lemma stringify2_id_42 : stringify2 id_42 = golden.
Proof. reflexivity. Qed.

(** With the backends answering [r], the handlers run by rewriting. *)
Ltac answer Hf Ha :=
  expose; cbv beta iota zeta;
  rewrite ?Hf, ?Ha; cbv beta iota zeta.

(** C7, as the code has it: when the vendor answers every request with a
    2xx response whose body parses to [{"id": 42}], every GoHighLevel,
    HubSpot and Keap tool and every reading Freshworks tool returns a
    success envelope whose text is exactly [golden], the body printed
    with an indentation of two spaces.  The Freshworks tools that create
    or change something put their confirmation line and an empty line
    before that text, and the Pipedrive tools, which print the [data]
    property of what the client resolves with, reply with no text at all
    when the client resolves with that object. *)
Theorem C7_golden_text (w : World) (r : Response) :
  ok r = true -> parse (body r) = Some id_42 ->
  (forall q, fetch_backend w q = Resolved r) ->
  (forall q, axios_backend w q = Resolved r) ->
  (forall c, pipedrive_backend w c = Resolved id_42) ->
  (forall t, exists c, invoke (GoHighLevelTool t) w = (Return (success golden), [c]))
  /\ (forall t, exists c, invoke (HubSpotTool t) w = (Return (success golden), [c]))
  /\ (forall t, exists c, invoke (KeapTool t) w = (Return (success golden), [c]))
  /\ (forall t, Freshworks.reads t = true ->
        exists c, invoke (FreshworksTool t) w = (Return (success golden), [c]))
  /\ (forall t, Freshworks.reads t = false ->
        exists c line,
          Freshworks.confirmation t id_42 = Some line
          /\ invoke (FreshworksTool t) w
             = (Return (success (line ++ newline :: newline :: golden)), [c]))
  /\ (forall t, exists c, invoke (PipedriveTool t) w = (Return (reply None), [c])).
Proof.
  intros Hok Hparse Hf Ha Hp.
  assert (Hd : axios_data (body r) = id_42) by (unfold axios_data; now rewrite Hparse).
  split; [ | split; [ | split; [ | split; [ | split ] ] ] ].
  - intros t; destruct t; answer Hf Ha; rewrite ?Hok; cbv [negb]; cbv beta iota zeta;
      rewrite ?Hparse; cbv beta iota zeta; eexists; reflexivity.
  - intros t; destruct t; answer Hf Ha; rewrite ?Hok; cbv [negb]; cbv beta iota zeta;
      rewrite ?Hparse; cbv beta iota zeta; eexists; reflexivity.
  - intros t; destruct t; answer Hf Ha; rewrite ?Hok; cbv [negb]; cbv beta iota zeta;
      rewrite ?Hparse; cbv beta iota zeta; eexists; reflexivity.
  - intros t Hr; destruct t; try discriminate Hr;
      answer Hf Ha; rewrite ?Hok, ?Hd; cbv beta iota zeta; eexists; reflexivity.
  - intros t Hr; destruct t; try discriminate Hr;
      answer Hf Ha; rewrite ?Hok, ?Hd; cbv beta iota zeta;
      eexists; eexists; split; reflexivity.
  - intros t; destruct t; expose; cbv beta iota zeta; rewrite Hp; cbv beta iota zeta;
      eexists; reflexivity.
Qed.

(** keap-list-contacts against a vendor that answers [{"id": 42}]. *)
Lemma C7_witness :
  exists c,
    invoke (KeapTool (Keap.ListContacts "key" 10 ["email" : str])) (fake ok_id_42)
    = (Return (success golden), [c]).
Proof.
  apply (proj1 (proj2 (proj2 (C7_golden_text (fake ok_id_42) ok_id_42 eq_refl eq_refl
                                (fun _ => eq_refl) (fun _ => eq_refl) (fun _ => eq_refl))))).
Defined.

(** freshdesk-create-ticket against a vendor that answers [{"id": 42}]:
    the text is not the printed body alone. *)
Lemma C7_counterexample :
  exists env c,
    invoke (FreshworksTool (Freshworks.CreateTicket "key" "acme" "Printer" "It is broken"
                              "a@b.com" 2 2 None)) (fake ok_id_42)
    = (Return env, [c])
    /\ text_of_envelope env
       = Some ("Ticket created successfully with ID: 42" ++ newline :: newline :: golden)
    /\ text_of_envelope env <> Some golden.
Proof.
  eexists. eexists. split; [ reflexivity | ]. split; [ reflexivity | discriminate ].
Qed.














(** createContact with [{email: "a@b.com"}] against the echoing vendor:
    the first line of the text is an opening brace and holds no [c1]. *)
Lemma C5_counterexample :
  GoHighLevel.email_or_phone only_email = true
  /\ exists env c txt,
       invoke (GoHighLevelTool (GoHighLevel.CreateContact "key" only_email)) (echo "c1")
       = (Return env, [c])
       /\ is_error env = false
       /\ text_of_envelope env = Some txt
       /\ first_line txt = ("{" : str)
       /\ includes "c1" (first_line txt) = false.
Proof.
  split; [ reflexivity | ].
  eexists. eexists. eexists. split; [ reflexivity | repeat split ].
Qed.

(** C5, as the code has it: against a vendor that echoes the posted object
    with an added [id: "c1"], createContact of the GoHighLevel server,
    called with [{email: "a@b.com"}], returns as text the echo printed
    with an indentation of two spaces and nothing before it: the first
    line is an opening brace, and [c1] comes further down.
    freshdesk-create-contact, which also takes a name, returns the line
    [Contact created successfully with ID: c1], an empty line and the
    echo. *)
Theorem C5_create_contact_echo (apiKey subdomain name : str) :
  (exists c,
     invoke (GoHighLevelTool (GoHighLevel.CreateContact apiKey only_email)) (echo "c1")
     = (Return (success (stringify2 echoed)), [c]))
  /\ first_line (stringify2 echoed) = "{"
  /\ includes "c1" (stringify2 echoed) = true
  /\ (exists c,
     invoke (FreshworksTool (Freshworks.CreateContact apiKey subdomain name "a@b.com"
                               None None None None None)) (echo "c1")
     = (Return (success ("Contact created successfully with ID: c1"
                           ++ newline :: newline
                           :: stringify2 (JObj [("name" : str, JStr name);
                                                ("email" : str, JStr "a@b.com");
                                                ("id" : str, JStr "c1")]))),
        [c])).
Proof.
  split; [ eexists; reflexivity | ].
  split; [ reflexivity | ]. split; [ reflexivity | ].
  assert (Hp : Freshworks.create_contact_payload name "a@b.com" None None None None None
               = JObj [("name" : str, JStr name); ("email" : str, JStr "a@b.com")])
    by reflexivity.
  assert (Hq : forall q, data q = Some (JObj [("name" : str, JStr name);
                                              ("email" : str, JStr "a@b.com")]) ->
               axios_backend (echo "c1") q
               = Resolved {| status := 200; statusText := "OK";
                             body := stringify (JObj [("name" : str, JStr name);
                                                      ("email" : str, JStr "a@b.com");
                                                      ("id" : str, JStr "c1")]) |}).
  { intros q Hq. cbn [axios_backend echo]. rewrite Hq. cbn [option_map].
    unfold echo_with_id. rewrite JsonFacts.parse_stringify by reflexivity. reflexivity. }
  expose. cbv beta iota zeta. rewrite Hp.
  rewrite Hq by reflexivity. cbv beta iota zeta.
  change (ok {| status := 200; statusText := "OK"; body := _ |}) with true.
  cbv beta iota zeta. cbn [body status ax_data ax_status].
  unfold axios_data. rewrite JsonFacts.parse_stringify by reflexivity.
  eexists. reflexivity.
Qed.










(** *** GoHighLevel *)














(** *** Keap *)







(** *** HubSpot *)





(** *** Freshworks *)












(** *** Entries without the text [undefined] *)













(** * Further properties of the handlers *)

(** ** Failures before any response *)

(** X1: when [fetch] rejects with an [Error] (the vendor cannot be
    reached), every GoHighLevel tool answers [Error: <message>] and
    every Keap and HubSpot tool answers its own label followed by the
    message, each as an error envelope after the one call. *)
Theorem X1_fetch_failure_text (w : World) (m : str) :
  (forall q, fetch_backend w q = Rejected (new_Error m)) ->
  (forall t, exists c,
      invoke (GoHighLevelTool t) w = (Return (failure ("Error: " ++ m)), [c]))
  /\ (forall t, exists c,
      invoke (KeapTool t) w = (Return (failure (Keap.label t ++ m)), [c]))
  /\ (forall t, exists c,
      invoke (HubSpotTool t) w = (Return (failure (HubSpot.label t ++ m)), [c])).
Proof.
  intros Hf. split; [ | split ]; intros t; destruct t; answer Hf Hf;
    eexists; reflexivity.
Qed.

(** getPipelines against a vendor that refuses the connection. *)
Lemma X1_witness :
  exists c,
    invoke (GoHighLevelTool (GoHighLevel.GetPipelines "key")) offline
    = (Return (failure "Error: connect ECONNREFUSED"), [c]).
Proof.
  apply (proj1 (X1_fetch_failure_text offline "connect ECONNREFUSED" (fun _ => eq_refl))).
Defined.

(** X2: [handleApiError] without a response.  When the axios request
    rejects with an [Error] that carries no response, a Freshworks tool
    answers [Error: <message>], and [Error: Unknown error] when the
    message is empty; when something that is no [Error] is thrown it
    answers [Error: Unknown error] as well. *)
Theorem X2_freshworks_failure_text (w : World) (t : Freshworks.Tool) :
  (forall m, (forall q, axios_backend w q = Rejected (new_Error m)) ->
     exists c,
       invoke (FreshworksTool t) w
       = (Return (failure ("Error: " ++ (if is_empty m then "Unknown error" else m))), [c]))
  /\ (forall s, (forall q, axios_backend w q = Rejected (ThrownString s)) ->
     exists c,
       invoke (FreshworksTool t) w = (Return (failure "Error: Unknown error"), [c])).
Proof.
  split; [ intros m Ha | intros s Ha ]; destruct t; answer Ha Ha; eexists; reflexivity.
Qed.

(** freshdesk-get-ticket against a vendor that refuses the connection. *)
Lemma X2_witness :
  exists c,
    invoke (FreshworksTool (Freshworks.GetTicket "key" "acme" 7)) offline
    = (Return (failure "Error: connect ECONNREFUSED"), [c]).
Proof.
  apply (proj1 (X2_freshworks_failure_text offline (Freshworks.GetTicket "key" "acme" 7))
           "connect ECONNREFUSED").
  reflexivity.
Defined.

(** X3: [getErrorMessage].  When the Pipedrive client rejects, the tool
    answers its label followed by the message of the [Error], or by the
    thrown string itself when a string was thrown. *)
Theorem X3_pipedrive_failure_text (w : World) (t : Pipedrive.Tool) :
  (forall m, (forall c, pipedrive_backend w c = Rejected (new_Error m)) ->
     exists c, invoke (PipedriveTool t) w = (Return (failure (Pipedrive.label t ++ m)), [c]))
  /\ (forall s, (forall c, pipedrive_backend w c = Rejected (ThrownString s)) ->
     exists c, invoke (PipedriveTool t) w = (Return (failure (Pipedrive.label t ++ s)), [c])).
Proof.
  split; [ intros m Hp | intros s Hp ]; destruct t; expose; cbv beta iota zeta;
    rewrite Hp; cbv beta iota zeta; eexists;
    cbn [Pipedrive.label Pipedrive.getErrorMessage Pipedrive.isErrorWithMessage message_or_string
         message new_Error];
    rewrite <- ?app_assoc; reflexivity.
Qed.

(** getPersonByID when the client cannot connect. *)
Lemma X3_witness :
  exists c,
    invoke (PipedriveTool (Pipedrive.GetPersonByID 7)) offline
    = (Return (failure "Error fetching person 7: connect ECONNREFUSED"), [c]).
Proof.
  apply (proj1 (X3_pipedrive_failure_text offline (Pipedrive.GetPersonByID 7))
           "connect ECONNREFUSED").
  reflexivity.
Defined.

(** ** Bodies that are not JSON, and the body [null] *)





(** X6: the body [null].  With a 2xx status every GoHighLevel, Keap and
    HubSpot tool answers the success text [null]; with any other status
    a GoHighLevel tool answers with the message of the [TypeError] that
    reading [message] of [null] raises. *)
Theorem X6_fetch_null_body (w : World) (r : Response) :
  parse (body r) = Some JNull ->
  (forall q, fetch_backend w q = Resolved r) ->
  (ok r = true ->
     (forall t, exists c, invoke (GoHighLevelTool t) w = (Return (success "null"), [c]))
     /\ (forall t, exists c, invoke (KeapTool t) w = (Return (success "null"), [c]))
     /\ (forall t, exists c, invoke (HubSpotTool t) w = (Return (success "null"), [c])))
  /\ (ok r = false ->
      forall t, exists c,
        invoke (GoHighLevelTool t) w
        = (Return (failure "Error: Cannot read properties of null (reading 'message')"),
           [c])).
Proof.
  intros Hp Hf. split; intros Hok; [ split; [ | split ] | ];
    intros t; destruct t; answer Hf Hf; rewrite ?Hok; cbv [negb]; cbv beta iota zeta;
    rewrite ?Hp; cbv beta iota zeta; eexists; reflexivity.
Qed.

(** keap-list-contacts answered with [null]. *)
Lemma X6_witness :
  exists c,
    invoke (KeapTool (Keap.ListContacts "key" 10 ["email" : str])) (fake ok_null)
    = (Return (success "null"), [c]).
Proof.
  apply (proj1 (proj2 (proj1 (X6_fetch_null_body (fake ok_null) ok_null eq_refl
                                (fun _ => eq_refl)) eq_refl))).
Defined.

(** X7: a property read on [null].  When a 2xx response has the body
    [null], freshdesk-create-ticket and freshdesk-create-contact, which
    read the [id] of the data, answer an error envelope with the message
    of the [TypeError], although the request was accepted; the other
    Freshworks tools succeed.  When the Pipedrive client resolves with
    [null], every Pipedrive tool answers its label and the message of the
    [TypeError] for [data]. *)
Theorem X7_null_data_read (w : World) :
  (forall r t,
      ok r = true -> parse (body r) = Some JNull ->
      (forall q, axios_backend w q = Resolved r) ->
      exists c,
        invoke (FreshworksTool t) w
        = (Return (if reads_id t
                   then failure "Error: Cannot read properties of null (reading 'id')"
                   else success (freshworks_text t JNull)), [c]))
  /\ (forall t,
      (forall c, pipedrive_backend w c = Resolved JNull) ->
      exists c,
        invoke (PipedriveTool t) w
        = (Return (failure (Pipedrive.label t
                              ++ "Cannot read properties of null (reading 'data')")), [c])).
Proof.
  split.
  - intros r t Hok Hp Ha.
    assert (Hd : axios_data (body r) = JNull) by (unfold axios_data; now rewrite Hp).
    destruct t; answer Ha Ha; rewrite ?Hok, ?Hd; cbv beta iota zeta; eexists; reflexivity.
  - intros t Hp. destruct t; expose; cbv beta iota zeta; rewrite Hp; cbv beta iota zeta;
      eexists;
      cbn [Pipedrive.label Pipedrive.getErrorMessage Pipedrive.isErrorWithMessage message_or_string
           message new_Error];
      rewrite <- ?app_assoc; reflexivity.
Qed.

(** freshdesk-create-ticket answered with [null]. *)
Lemma X7_witness :
  exists c,
    invoke (FreshworksTool (Freshworks.CreateTicket "key" "acme" "Printer" "It is broken"
                              "a@b.com" 2 2 None)) (fake ok_null)
    = (Return (failure "Error: Cannot read properties of null (reading 'id')"), [c]).
Proof.
  apply (proj1 (X7_null_data_read (fake ok_null)) ok_null
           (Freshworks.CreateTicket "key" "acme" "Printer" "It is broken" "a@b.com" 2 2 None)
           eq_refl eq_refl (fun _ => eq_refl)).
Defined.

(** ** One request, built from the input alone *)





(** ** The shape of the envelopes *)


Lemma serialize_start (gap indent : str) (v : value) :
  error_start (serialize gap indent v) = false.
Proof.
  destruct v as [ | [] | n | s | l | m ]; try reflexivity.
  - cbn [serialize]. destruct (JsonFacts.toString_head n) as (c & t & E & Hc). rewrite E.
    clear E. destruct c as [[] [] [] [] [] [] [] []]; try discriminate Hc; reflexivity.
  - cbn [serialize]. destruct (map _ l); [ | rewrite JsonFacts.wrap_nonempty ]; reflexivity.
  - cbn [serialize]. destruct (map _ m); [ | rewrite JsonFacts.wrap_nonempty ]; reflexivity.
Qed.

(** X12: the text of an envelope tells errors from successes: it starts
    with [Error] or [API Error (] exactly when the envelope is an error
    envelope. *)
Theorem X12_error_texts_start_with_error (t : ToolCall) (w : World) :
  exists env log,
    invoke t w = (Return env, log)
    /\ forall txt, text_of_envelope env = Some txt -> error_start txt = is_error env.
Proof.
  destruct t as [ [] | [] | [] | [] | [] ]; run; eexists; eexists;
    (split; [ reflexivity | ]); intros txt E;
    cbn [text_of_envelope content failure success reply text] in E;
    try (injection E as <-);
    cbn [is_error isError failure success reply];
    try reflexivity;
    try apply serialize_start;
    try (match type of E with
         | stringify2_opt ?x = Some _ =>
             destruct x; [ injection E as <-; apply serialize_start | discriminate E ]
         end).
  all: match goal with
       | |- error_start (Freshworks.handleApiError ?e) = true =>
           destruct e as [ [m [r | ]] | s ]; reflexivity
       end.
Qed.

(** getPipelines answered with [{"id": 42}]. *)
Lemma X12_witness :
  exists env log,
    invoke (GoHighLevelTool (GoHighLevel.GetPipelines "key")) (fake ok_id_42)
    = (Return env, log)
    /\ error_start golden = is_error env.
Proof.
  destruct (X12_error_texts_start_with_error
              (GoHighLevelTool (GoHighLevel.GetPipelines "key")) (fake ok_id_42))
    as (env & log & H & Ht).
  exists env, log. split; [ exact H | ].
  apply Ht. injection H as <- _. reflexivity.
Defined.

(** ** Request bodies *)













Lemma normal_when_present (k : str) (x : option str) :
  Freshworks.when_present k x = [(k, if present x then jstr x else None)]
  \/ Freshworks.when_present k x = [].
Proof. unfold Freshworks.when_present. destruct (present x); auto. Qed.




Lemma lookup_in (k : str) (v : value) (m : list (str * value)) :
  lookup k m = Some v -> exists k', Str.eqb k k' = true /\ In (k', v) m.
Proof.
  induction m as [ | [k' v'] m IH ]; cbn [lookup]; [ discriminate | ].
  destruct (Str.eqb k k') eqn:E.
  - intros H. injection H as <-. exists k'. split; [ exact E | now left ].
  - intros H. destruct (IH H) as (k'' & E' & Hin). exists k''. split; [ exact E' | now right ].
Qed.

Lemma in_defined (k : str) (v : value) (ps : props) :
  In (k, v) (defined ps) -> In (k, Some v) ps.
Proof.
  induction ps as [ | [k' [v' | ]] ps IH ]; cbn [defined In]; auto.
  - intros [H | H]; [ left; injection H as -> ->; reflexivity | right; auto ].
Qed.

Lemma member_object_in (k : str) (v : value) (ps : props) :
  member k (object ps) = Some v -> exists k', Str.eqb k k' = true /\ In (k', Some v) ps.
Proof.
  unfold object. cbn [member]. intros H. destruct (lookup_in _ _ _ H) as (k' & E & Hin).
  exists k'. split; [ exact E | now apply in_defined ].
Qed.

(** An entry of an object literal that cannot hold [null]. *)
Ltac not_null H :=
  try discriminate H;
  injection H as _ H;
  unfold jstr, jnum, jbool, jstrings in H;
  try match type of H with
      | option_map _ ?x = _ => destruct x
      | _ = option_map _ ?x => destruct x
      end;
  discriminate H.

Ltac no_null_entry Hin :=
  cbn [In] in Hin;
  repeat match type of Hin with
         | _ \/ _ => destruct Hin as [Hin | Hin]
         end;
  first [ contradiction | not_null Hin ].

(** X14: no member of a request body is [null], except [company_id] of
    freshdesk-create-contact when a company name is given: a field that
    is absent from the input is left out of the body. *)
Theorem X14_no_null_members (t : ToolCall) (p : value) (k : str) :
  payload t = Some p -> member k p = Some JNull -> explicit_null t k = true.
Proof.
  intros H.
  destruct t as [ [] | [] | [] | [] | [] ]; try discriminate H;
    cbn [payload] in H; inversion H; subst; clear H; intros Hm;
    try (apply member_object_in in Hm; destruct Hm as (k' & E & Hin); no_null_entry Hin).
  - unfold Freshworks.create_contact_payload, Freshworks.when_present in Hm.
    cbn [explicit_null].
    destruct companyName as [ [ | ? ? ] | ];
      destruct (present phone), (present mobilePhone), (present twitterId),
        (present description);
      apply member_object_in in Hm; destruct Hm as (k' & E & Hin);
      cbn [app In present] in Hin;
      repeat match type of Hin with
             | _ \/ _ => destruct Hin as [Hin | Hin]
             end;
      first [ contradiction
            | not_null Hin
            | injection Hin as <-; cbn [present andb]; exact E ].
  - unfold Freshworks.update_contact_payload, Freshworks.when_present in Hm.
    destruct (present name), (present email), (present phone), (present mobilePhone),
      (present twitterId), (present description);
      apply member_object_in in Hm; destruct Hm as (k' & E & Hin);
      cbn [app] in Hin; no_null_entry Hin.
Qed.

(** freshdesk-create-contact with the company name [Acme]. *)
Lemma X14_witness :
  explicit_null
    (FreshworksTool (Freshworks.CreateContact "key" "acme" "Ann" "a@b.com" None None None
                       (Some ("Acme" : str)) None))
    "company_id" = true.
Proof.
  apply (X14_no_null_members
           (FreshworksTool (Freshworks.CreateContact "key" "acme" "Ann" "a@b.com" None None
                              None (Some ("Acme" : str)) None))
           _ "company_id" eq_refl).
  reflexivity.
Defined.

(** X15: freshdesk-update-ticket sends exactly the fields that were
    provided, an empty subject or description included, and no other
    key. *)
Theorem X15_update_ticket_sends_what_is_given
    (subject description : option str) (priority status : option Z)
    (tags : option (list str)) :
  let p := Freshworks.update_ticket_payload subject description priority status tags in
  member "subject" p = jstr subject
  /\ member "description" p = jstr description
  /\ member "priority" p = jnum priority
  /\ member "status" p = jnum status
  /\ member "tags" p = jstrings tags
  /\ forall k,
       In k ["subject" : str; "description" : str; "priority" : str; "status" : str;
             "tags" : str]
       \/ member k p = None.
Proof.
  cbv zeta. unfold Freshworks.update_ticket_payload.
  repeat split;
    try (destruct subject, description, priority, status, tags; reflexivity).
  intros k.
  match goal with
  | |- _ \/ ?m = None => destruct m as [ v | ] eqn:Hm; [ left | right; reflexivity ]
  end.
  apply member_object_in in Hm. destruct Hm as (k' & E & Hin).
  apply JsonFacts.str_eqb_eq in E. subst k'.
  cbn [In] in Hin.
  repeat match type of Hin with
         | _ \/ _ => destruct Hin as [Hin | Hin]
         end;
    try contradiction; injection Hin as <- _; cbn [In]; auto 6.
Qed.

(** X16: freshdesk-update-contact sends a field only when it is present
    and not the empty string, [mobilePhone] under the key [mobile] and
    [twitterId] under [twitter_id]. *)
Theorem X16_update_contact_drops_empty
    (name email phone mobilePhone twitterId description : option str) :
  let p := Freshworks.update_contact_payload name email phone mobilePhone twitterId
             description in
  member "name" p = if_present name
  /\ member "email" p = if_present email
  /\ member "phone" p = if_present phone
  /\ member "mobile" p = if_present mobilePhone
  /\ member "twitter_id" p = if_present twitterId
  /\ member "description" p = if_present description.
Proof.
  cbv zeta. unfold Freshworks.update_contact_payload, Freshworks.when_present, if_present.
  destruct name as [ [ | ? ? ] | ], email as [ [ | ? ? ] | ], phone as [ [ | ? ? ] | ],
    mobilePhone as [ [ | ? ? ] | ], twitterId as [ [ | ? ? ] | ],
    description as [ [ | ? ? ] | ]; repeat split; reflexivity.
Qed.

(** X17: freshdesk-create-contact always sends [name] and [email]; when
    a company name is given (and not empty) it sends [company_id: null]
    and the name inside [other_companies], never as [company_name]. *)
Theorem X17_create_contact_company (name email : str)
    (phone mobilePhone twitterId companyName description : option str) :
  let p := Freshworks.create_contact_payload name email phone mobilePhone twitterId
             companyName description in
  member "name" p = Some (JStr name)
  /\ member "email" p = Some (JStr email)
  /\ member "company_id" p = (if present companyName then Some JNull else None)
  /\ member "other_companies" p
     = (if present companyName
        then Some (JArr [JObj [("name" : str, JStr (GoHighLevel.unwrap companyName))]])
        else None)
  /\ member "company_name" p = None.
Proof.
  cbv zeta. unfold Freshworks.create_contact_payload, Freshworks.when_present.
  destruct companyName as [ [ | ? ? ] | ], phone as [ [ | ? ? ] | ],
    mobilePhone as [ [ | ? ? ] | ], twitterId as [ [ | ? ? ] | ],
    description as [ [ | ? ? ] | ]; repeat split; reflexivity.
Qed.
